(** * staticdeploy: the [POST /deploy] handler

    A shallow embedding of [web-server/src/api/deploy/post.ts].  The
    handler is written as a program over the calls it makes to its
    collaborators (storage, matcher validation, operation log, HTTP
    response); an interpreter runs such a program against any
    implementation of the collaborators and records the calls made. *)

From Stdlib Require Import Ascii.
From stdpp Require Import base strings list gmap infinite pretty.

Open Scope string_scope.
Open Scope list_scope.

(** ** Data model *)

(** The type declarations of [@staticdeploy/common-types] and of the
    storage package are not part of the sources at hand; the records
    below carry the fields the spec's data model lists. *)

(** Modelled from the spec: [IConfiguration], an opaque key-value
    map. *)
Abbreviation IConfiguration := (gmap string string).

Module Bundle.
(** Modelled from the spec: [IBundle], identified by [id], with a
    [name] and [tag]. *)
Record t : Type := mk { id : string; name : string; tag : string }.
End Bundle.

Module App.
(** Modelled from the spec: [IApp], with [id], [name] (unique),
    [defaultConfiguration]. *)
Record t : Type :=
  mk { id : string; name : string; defaultConfiguration : IConfiguration }.

(** Modelled from the spec: the argument of [storage.apps.create],
    [Create({name, defaultConfiguration})]; the handler's object
    literal has these two properties. *)
Record partial : Type :=
  mkPartial { p_name : string; p_defaultConfiguration : IConfiguration }.
End App.

Module Entrypoint.
(** Modelled from the spec: [IEntrypoint], with [id], [appId],
    [urlMatcher], [configuration] (nullable), [bundleId] (nullable). *)
Record t : Type :=
  mk { id : string;
       appId : string;
       urlMatcher : string;
       configuration : option IConfiguration;
       bundleId : option string }.

(** Modelled from the spec: the argument of
    [storage.entrypoints.create], [Create({appId, urlMatcher,
    configuration})]; the handler's object literal has these three
    properties. *)
Record partial : Type :=
  mkPartial { p_appId : string;
              p_urlMatcher : string;
              p_configuration : option IConfiguration }.

(** Modelled from the spec: the argument of
    [storage.entrypoints.update]; a patch may carry any field of an
    entrypoint but its id, [None] stands for an absent property. *)
Record patch : Type :=
  mkPatch { u_appId : option string;
            u_bundleId : option (option string);
            u_urlMatcher : option string;
            u_configuration : option (option IConfiguration) }.

(** The object literal [{ bundleId: b }]. *)
Definition bundleId_only (b : string) : patch :=
  {| u_appId := None; u_bundleId := Some (Some b);
     u_urlMatcher := None; u_configuration := None |}.
End Entrypoint.

(** Modelled from the spec: the members of [Operation] (declared in
    the common types) that the handler logs, kind ∈ {createApp,
    createEntrypoint, updateEntrypoint}. *)
Inductive Operation : Type := createApp | createEntrypoint | updateEntrypoint.

Global Instance Operation_eq_dec : EqDecision Operation.
Proof. solve_decision. Defined.

(** The payload objects handed to [req.logOperation]. *)
Inductive LogPayload : Type :=
  | CreatedApp (createdApp : App.t)
  | CreatedEntrypoint (createdEntrypoint : Entrypoint.t)
  | UpdatedEntrypoint (oldEntrypoint newEntrypoint : Entrypoint.t).

(** [req.body] *)
Record IRequest : Type :=
  { appName : string;
    entrypointUrlMatcher : string;
    bundleNameTagCombination : string }.

(** ** Programs over collaborator calls *)

Section Programs.
(** What a collaborator throws (or rejects a promise with). *)
Context {Fault : Type}.

(** What the handler itself can end up throwing. *)
Inductive Thrown : Type :=
  | BundleNotFoundError (searchValue searchProperty : string)
  | CollaboratorFault (f : Fault).

(** A settled promise; also the completion of a synchronous call. *)
Inductive settled (X : Type) : Type :=
  | Fulfilled (x : X)
  | Rejected (f : Fault).
Global Arguments Fulfilled {X} x.
Global Arguments Rejected {X} f.

Inductive call : Type → Type :=
  | FindLatestByNameTagCombination (ref : string) : call (option Bundle.t)
  | FindOneByIdOrName (ref : string) : call (option App.t)
  | FindOneByIdOrUrlMatcher (ref : string) : call (option Entrypoint.t)
  | ValidateEntrypointUrlMatcher (urlMatcher : string) : call unit
  | AppsCreate (partial : App.partial) : call App.t
  | EntrypointsCreate (partial : Entrypoint.partial) : call Entrypoint.t
  | EntrypointsUpdate (id : string) (patch : Entrypoint.patch)
      : call Entrypoint.t
  | LogOperation (op : Operation) (payload : LogPayload) : call unit
  | Send (status : Z) (message : option string) : call unit.

(** The order in time in which three promises started together
    settle, by position: with [R213] the second settles first, then
    the first, then the third. *)
Inductive race : Type := R123 | R132 | R213 | R231 | R312 | R321.

Inductive prog (A : Type) : Type :=
  | Ret (a : A)
  | Throw (e : Thrown)
  | Vis {X : Type} (c : call X) (k : settled X → prog A)
  | Race (k : race → prog A).
Global Arguments Ret {A} a.
Global Arguments Throw {A} e.
Global Arguments Vis {A X} c k.
Global Arguments Race {A} k.

Fixpoint bind {A B} (p : prog A) (f : A → prog B) : prog B :=
  match p with
  | Ret a => f a
  | Throw e => Throw e
  | Vis c k => Vis c (λ r, bind (k r) f)
  | Race k => Race (λ order, bind (k order) f)
  end.

Global Instance prog_ret : MRet prog := λ A, Ret.
Global Instance prog_bind : MBind prog := λ A B f p, bind p f.

(** Start a call and get hold of its promise. *)
Definition invoke {X} (c : call X) : prog (settled X) := Vis c Ret.

(** [await p] *)
Definition await {X} (p : settled X) : prog X :=
  match p with
  | Fulfilled x => Ret x
  | Rejected f => Throw (CollaboratorFault f)
  end.

(** [await c(...)], and a synchronous call that may throw. *)
Definition perform {X} (c : call X) : prog X := invoke c ≫= await.

(** The order in which the promises the handler started together
    settle; it is for the collaborators and the event loop to decide. *)
Definition settling : prog race := Race Ret.

(** Wait for [p], then go on with its value; a rejection ends it. *)
Definition and_then {X Y} (p : settled X) (k : X → settled Y) : settled Y :=
  match p with
  | Fulfilled x => k x
  | Rejected f => Rejected f
  end.

(** [Promise.all([p1, p2, p3])]: fulfilled with the three values when
    all are fulfilled, rejected as soon as one is, with the rejection
    of the one that is rejected first in time. *)
Definition Promise_all {X Y Z} (order : race) (p1 : settled X)
    (p2 : settled Y) (p3 : settled Z) : settled (X * Y * Z) :=
  match order with
  | R123 =>
      and_then p1 (λ x, and_then p2 (λ y, and_then p3 (λ z,
        Fulfilled (x, y, z))))
  | R132 =>
      and_then p1 (λ x, and_then p3 (λ z, and_then p2 (λ y,
        Fulfilled (x, y, z))))
  | R213 =>
      and_then p2 (λ y, and_then p1 (λ x, and_then p3 (λ z,
        Fulfilled (x, y, z))))
  | R231 =>
      and_then p2 (λ y, and_then p3 (λ z, and_then p1 (λ x,
        Fulfilled (x, y, z))))
  | R312 =>
      and_then p3 (λ z, and_then p1 (λ x, and_then p2 (λ y,
        Fulfilled (x, y, z))))
  | R321 =>
      and_then p3 (λ z, and_then p2 (λ y, and_then p1 (λ x,
        Fulfilled (x, y, z))))
  end.
Global Arguments Promise_all : simpl never.

(** ** The handler *)

(** [existingEntrypoint !== null &&
     (!existingApp || existingApp.id !== existingEntrypoint.appId)] *)
Definition doesnt_link (existingApp : option App.t)
    (existingEntrypoint : option Entrypoint.t) : bool :=
  match existingEntrypoint with
  | None => false
  | Some e =>
      match existingApp with
      | None => true
      | Some a => negb (String.eqb (App.id a) (Entrypoint.appId e))
      end
  end.

(** U+00A0, the no-break space the message has before [doesn't];
    strings are held as UTF-8 bytes. *)
Definition nbsp : string := String "194"%char (String "160"%char "").

Definition conflict_message (req : IRequest) : string :=
  "Entrypoint with urlMatcher = " +:+ entrypointUrlMatcher req +:+
  nbsp +:+ "doesn't link to app with name = " +:+ appName req.

Definition handler (req : IRequest) : prog unit :=
  (* Retrieve the deploy objects *)
  p1 ← invoke (FindLatestByNameTagCombination (bundleNameTagCombination req));
  p2 ← invoke (FindOneByIdOrName (appName req));
  p3 ← invoke (FindOneByIdOrUrlMatcher (entrypointUrlMatcher req));
  order ← settling;
  '(bundle, existingApp, existingEntrypoint) ←
    await (Promise_all order p1 p2 p3);
  (* Ensure the bundle exists *)
  match bundle with
  | None =>
      Throw (BundleNotFoundError (bundleNameTagCombination req)
                                 "name:tag combination")
  | Some bundle =>
      (* Ensure that, if the entrypoint exists, it links to the app *)
      if doesnt_link existingApp existingEntrypoint then
        perform (Send 409 (Some (conflict_message req)))
      else
        (* Create the app if it doesn't exist *)
        app ← match existingApp with
              | Some app => mret app
              | None =>
                  perform (ValidateEntrypointUrlMatcher
                             (entrypointUrlMatcher req));;
                  app ← perform (AppsCreate
                           {| App.p_name := appName req;
                              App.p_defaultConfiguration := ∅ |});
                  perform (LogOperation createApp (CreatedApp app));;
                  mret app
              end;
        (* Create the entrypoint if it doesn't exist *)
        entrypoint ← match existingEntrypoint with
              | Some entrypoint => mret entrypoint
              | None =>
                  entrypoint ← perform (EntrypointsCreate
                           {| Entrypoint.p_appId := App.id app;
                              Entrypoint.p_urlMatcher :=
                                entrypointUrlMatcher req;
                              Entrypoint.p_configuration := None |});
                  perform (LogOperation createEntrypoint
                             (CreatedEntrypoint entrypoint));;
                  mret entrypoint
              end;
        (* Update the entrypoint to point it to the supplied bundle *)
        newEntrypoint ← perform (EntrypointsUpdate (Entrypoint.id entrypoint)
                           (Entrypoint.bundleId_only (Bundle.id bundle)));
        perform (LogOperation updateEntrypoint
                   (UpdatedEntrypoint entrypoint newEntrypoint));;
        perform (Send 204 None)
  end.

(** ** Running a program against its collaborators *)

(** The collaborators, over a world [W] (the storage contents and the
    operation log).  Lookups read the world; validation is a pure
    function; creations, the update and logging may change it. *)
Class Collaborators (W : Type) : Type :=
  { bundles_findLatestByNameTagCombination :
      string → W → settled (option Bundle.t);
    apps_findOneByIdOrName : string → W → settled (option App.t);
    entrypoints_findOneByIdOrUrlMatcher :
      string → W → settled (option Entrypoint.t);
    validateEntrypointUrlMatcher : string → settled unit;
    apps_create : App.partial → W → settled App.t * W;
    entrypoints_create : Entrypoint.partial → W → settled Entrypoint.t * W;
    entrypoints_update :
      string → Entrypoint.patch → W → settled Entrypoint.t * W;
    logOperation : Operation → LogPayload → W → settled unit * W;
    lookups_settle : W → race }.

(** A call together with how it settled. *)
Inductive event : Type :=
  | Event {X : Type} (c : call X) (r : settled X).

Inductive outcome (A : Type) : Type :=
  | Returned (a : A)
  | Raised (e : Thrown).
Global Arguments Returned {A} a.
Global Arguments Raised {A} e.

Section Run.
Context {W : Type} {C : Collaborators W}.

Definition answer {X} (c : call X) (w : W) : settled X * W :=
  match c in call X return settled X * W with
  | FindLatestByNameTagCombination ref =>
      (bundles_findLatestByNameTagCombination ref w, w)
  | FindOneByIdOrName ref => (apps_findOneByIdOrName ref w, w)
  | FindOneByIdOrUrlMatcher ref =>
      (entrypoints_findOneByIdOrUrlMatcher ref w, w)
  | ValidateEntrypointUrlMatcher u => (validateEntrypointUrlMatcher u, w)
  | AppsCreate partial => apps_create partial w
  | EntrypointsCreate partial => entrypoints_create partial w
  | EntrypointsUpdate id patch => entrypoints_update id patch w
  | LogOperation op payload => logOperation op payload w
  | Send _ _ => (Fulfilled (), w)
  end.

Fixpoint run {A} (p : prog A) (w : W) : list event * outcome A * W :=
  match p with
  | Ret a => ([], Returned a, w)
  | Throw e => ([], Raised e, w)
  | Vis c k =>
      let '(r, w1) := answer c w in
      let '(t, o, w2) := run (k r) w1 in
      (Event c r :: t, o, w2)
  | Race k => run (k (lookups_settle w)) w
  end.
End Run.
End Programs.

(** ** Observing an execution *)

Section Observations.
Context {Fault : Type}.
Abbreviation event := (@event Fault).

(** The flat name of a call, without its arguments. *)
Inductive kind : Type :=
  | KFindBundle | KFindApp | KFindEntrypoint | KValidate
  | KAppsCreate | KEntrypointsCreate | KEntrypointsUpdate
  | KLogOperation (op : Operation) | KSend.

Global Instance kind_eq_dec : EqDecision kind.
Proof. solve_decision. Defined.

Definition kind_of_call {X} (c : call X) : kind :=
  match c with
  | FindLatestByNameTagCombination _ => KFindBundle
  | FindOneByIdOrName _ => KFindApp
  | FindOneByIdOrUrlMatcher _ => KFindEntrypoint
  | ValidateEntrypointUrlMatcher _ => KValidate
  | AppsCreate _ => KAppsCreate
  | EntrypointsCreate _ => KEntrypointsCreate
  | EntrypointsUpdate _ _ => KEntrypointsUpdate
  | LogOperation op _ => KLogOperation op
  | Send _ _ => KSend
  end.

Definition kind_of (ev : event) : kind :=
  match ev with Event c _ => kind_of_call c end.

Definition kinds (t : list event) : list kind := kind_of <$> t.

Definition fulfilled {X} (r : @settled Fault X) : option X :=
  match r with Fulfilled x => Some x | Rejected _ => None end.

Definition rejection {X} (r : @settled Fault X) : option Fault :=
  match r with Fulfilled _ => None | Rejected f => Some f end.

(** Calls that ask the storage to change: the two creations and the
    update, whether or not they went through. *)
Definition is_mutation (ev : event) : bool :=
  match kind_of ev with
  | KAppsCreate | KEntrypointsCreate | KEntrypointsUpdate => true
  | _ => false
  end.

Definition mutations (t : list event) : list event :=
  filter (λ ev, is_mutation ev = true) t.

(** The app a fulfilled [storage.apps.create] returned. *)
Definition created_app (ev : event) : option App.t :=
  match ev with
  | Event c r =>
      match c in call X return settled X → option App.t with
      | AppsCreate _ => fulfilled
      | _ => λ _, None
      end r
  end.

(** The entrypoint a fulfilled [storage.entrypoints.create] returned. *)
Definition created_entrypoint (ev : event) : option Entrypoint.t :=
  match ev with
  | Event c r =>
      match c in call X return settled X → option Entrypoint.t with
      | EntrypointsCreate _ => fulfilled
      | _ => λ _, None
      end r
  end.

(** The arguments of a [storage.apps.create] call. *)
Definition app_requested (ev : event) : option App.partial :=
  match ev with
  | Event (AppsCreate partial) _ => Some partial
  | _ => None
  end.

(** The arguments of a [storage.entrypoints.create] call. *)
Definition entrypoint_requested (ev : event) : option Entrypoint.partial :=
  match ev with
  | Event (EntrypointsCreate partial) _ => Some partial
  | _ => None
  end.

(** The arguments of a [storage.entrypoints.update] call. *)
Definition update_requested (ev : event)
    : option (string * Entrypoint.patch) :=
  match ev with
  | Event (EntrypointsUpdate id patch) _ => Some (id, patch)
  | _ => None
  end.

(** The matcher handed to [validateEntrypointUrlMatcher]. *)
Definition validated (ev : event) : option string :=
  match ev with
  | Event (ValidateEntrypointUrlMatcher u) _ => Some u
  | _ => None
  end.

(** What was sent on [res]. *)
Definition sent (ev : event) : option (Z * option string) :=
  match ev with
  | Event (Send status message) _ => Some (status, message)
  | _ => None
  end.

(** What was handed to [req.logOperation]. *)
Definition logged (ev : event) : option (Operation * LogPayload) :=
  match ev with
  | Event (LogOperation op payload) _ => Some (op, payload)
  | _ => None
  end.

Definition created_apps (t : list event) := omap created_app t.
Definition created_entrypoints (t : list event) := omap created_entrypoint t.
Definition validations (t : list event) := omap validated t.
Definition responses (t : list event) := omap sent t.
Definition audit_emitted (t : list event) := omap logged t.
(** The entrypoint a fulfilled [findOneByIdOrUrlMatcher] found. *)
Definition found_entrypoint (ev : event) : option Entrypoint.t :=
  match ev with
  | Event c r =>
      match c in call X return settled X → option Entrypoint.t with
      | FindOneByIdOrUrlMatcher _ => λ r, mjoin (fulfilled r)
      | _ => λ _, None
      end r
  end.

(** The entrypoint a fulfilled [storage.entrypoints.update] returned. *)
Definition updated_entrypoint (ev : event) : option Entrypoint.t :=
  match ev with
  | Event c r =>
      match c in call X return settled X → option Entrypoint.t with
      | EntrypointsUpdate _ _ => fulfilled
      | _ => λ _, None
      end r
  end.

Definition updated_entrypoints (t : list event) := omap updated_entrypoint t.

(** The audit trail the mutations of a trace call for: one entry per
    creation or update that went through, carrying the record the
    storage returned; for an update also the entrypoint as it was
    before, [held] being the entrypoint found or created so far. *)
Fixpoint audit_due (held : option Entrypoint.t) (t : list event)
    : list (Operation * LogPayload) :=
  match t with
  | [] => []
  | ev :: t =>
      match created_app ev, created_entrypoint ev, updated_entrypoint ev with
      | Some a, _, _ => (createApp, CreatedApp a) :: audit_due held t
      | _, Some e, _ =>
          (createEntrypoint, CreatedEntrypoint e) :: audit_due (Some e) t
      | _, _, Some new =>
          match held with
          | Some old =>
              (updateEntrypoint, UpdatedEntrypoint old new)
                :: audit_due held t
          | None => audit_due held t
          end
      | None, None, None =>
          audit_due (if found_entrypoint ev is Some e then Some e else held) t
      end
  end.

(** The rejection a rejected call carries. *)
Definition rejected_with (ev : event) : option Fault :=
  match ev with Event _ r => rejection r end.

Definition rejections (t : list event) : list Fault := omap rejected_with t.

(** The log entries of one operation. *)
Definition emitted_of (op : Operation) (t : list event)
    : list (Operation * LogPayload) :=
  filter (λ entry, entry.1 = op) (audit_emitted t).

(** A successful deploy: the handler returned having sent [204] with
    no body, and nothing else. *)
Definition succeeded {W} (x : list event * @outcome Fault unit * W)
    : Prop :=
  x.1.2 = Returned () ∧ responses x.1.1 = [(204%Z, None)].
End Observations.

(** The three components of an execution. *)
Definition trace {E O W} (x : list E * O * W) : list E := x.1.1.
Definition result {E O W} (x : list E * O * W) : O := x.1.2.
Definition final {E O W} (x : list E * O * W) : W := x.2.

(** ** An in-memory storage *)

(** The storage package is not part of the sources at hand.  The store
    below implements the interface of the spec's section 6 over lists
    of records kept in creation order. *)

Module Memory.
(** Modelled from the spec: the collaborator-defined faults a
    storage call may raise; the malformed matcher, an update of an
    entrypoint that is not there, and anything else. *)
Inductive StorageError : Type :=
  | UrlMatcherNotValidError (urlMatcher : string)
  | EntrypointNotFoundError (id : string)
  | GenericStorageError (message : string).

(** Modelled from the spec: what the storage collaborator persists,
    bundles, apps and entrypoints, and the audit log. *)
Record Store : Type :=
  mkStore { bundles : list Bundle.t;
            apps : list App.t;
            entrypoints : list Entrypoint.t;
            operationLogs : list (Operation * LogPayload) }.

Definition with_apps (l : list App.t) (s : Store) : Store :=
  {| bundles := bundles s; apps := l; entrypoints := entrypoints s;
     operationLogs := operationLogs s |}.

Definition with_entrypoints (l : list Entrypoint.t) (s : Store) : Store :=
  {| bundles := bundles s; apps := apps s; entrypoints := l;
     operationLogs := operationLogs s |}.

Definition with_operationLogs (l : list (Operation * LogPayload))
    (s : Store) : Store :=
  {| bundles := bundles s; apps := apps s; entrypoints := entrypoints s;
     operationLogs := l |}.

Definition nameTagCombination (b : Bundle.t) : string :=
  Bundle.name b +:+ ":" +:+ Bundle.tag b.

(** Modelled from the spec: [FindLatestByNameTag(ref) -> Bundle|null],
    the latest bundle matching that name:tag (latest by creation
    time). *)
Definition findLatestByNameTagCombination (ref : string) (s : Store)
    : option Bundle.t :=
  last (filter (λ b, nameTagCombination b = ref) (bundles s)).

(** Modelled from the spec: [FindOneByIdOrName(ref) -> App|null]. *)
Definition findOneByIdOrName (ref : string) (s : Store) : option App.t :=
  head (filter (λ a, App.id a = ref ∨ App.name a = ref) (apps s)).

(** Modelled from the spec:
    [FindOneByIdOrUrlMatcher(ref) -> Entrypoint|null]. *)
Definition findOneByIdOrUrlMatcher (ref : string) (s : Store)
    : option Entrypoint.t :=
  head (filter (λ e, Entrypoint.id e = ref ∨ Entrypoint.urlMatcher e = ref)
               (entrypoints s)).

Definition findOneById (id : string) (s : Store) : option Entrypoint.t :=
  head (filter (λ e, Entrypoint.id e = id) (entrypoints s)).

(** Modelled from the spec: records are identified by [id]; a new
    record gets an id no stored record has. *)
Definition generateId (taken : list string) : string := fresh taken.

(** Modelled from the spec: [Create({name, defaultConfiguration}) -> App]. *)
Definition create_app (partial : App.partial) (s : Store) : App.t * Store :=
  let app := {| App.id := generateId (App.id <$> apps s);
                App.name := App.p_name partial;
                App.defaultConfiguration :=
                  App.p_defaultConfiguration partial |} in
  (app, with_apps (apps s ++ [app]) s).

(** Modelled from the spec: [Create({appId, urlMatcher, configuration})
    -> Entrypoint], the new entrypoint having a null bundle. *)
Definition create_entrypoint (partial : Entrypoint.partial) (s : Store)
    : Entrypoint.t * Store :=
  let entrypoint :=
    {| Entrypoint.id := generateId (Entrypoint.id <$> entrypoints s);
       Entrypoint.appId := Entrypoint.p_appId partial;
       Entrypoint.urlMatcher := Entrypoint.p_urlMatcher partial;
       Entrypoint.configuration := Entrypoint.p_configuration partial;
       Entrypoint.bundleId := None |} in
  (entrypoint, with_entrypoints (entrypoints s ++ [entrypoint]) s).

(** Modelled from the spec: [Update(id, {bundleId}) -> Entrypoint]; the
    fields present in the patch overwrite those of the record with
    that id, and the record as updated is returned. *)
Definition apply_patch (patch : Entrypoint.patch) (e : Entrypoint.t)
    : Entrypoint.t :=
  {| Entrypoint.id := Entrypoint.id e;
     Entrypoint.appId := default (Entrypoint.appId e) (Entrypoint.u_appId patch);
     Entrypoint.urlMatcher :=
       default (Entrypoint.urlMatcher e) (Entrypoint.u_urlMatcher patch);
     Entrypoint.configuration :=
       default (Entrypoint.configuration e)
               (Entrypoint.u_configuration patch);
     Entrypoint.bundleId :=
       default (Entrypoint.bundleId e) (Entrypoint.u_bundleId patch) |}.

Definition patch_at (id : string) (patch : Entrypoint.patch)
    (e : Entrypoint.t) : Entrypoint.t :=
  if decide (Entrypoint.id e = id) then apply_patch patch e else e.

Definition update_entrypoint (id : string) (patch : Entrypoint.patch)
    (s : Store) : option (Entrypoint.t * Store) :=
  e ← findOneById id s;
  Some (apply_patch patch e,
        with_entrypoints (patch_at id patch <$> entrypoints s) s).

(** Modelled from the spec: [LogOperation(kind, payload)]. *)
Definition append_log (op : Operation) (payload : LogPayload) (s : Store)
    : Store :=
  with_operationLogs (operationLogs s ++ [(op, payload)]) s.

(** Modelled from the spec: every storage call is assumed to either
    succeed or raise a collaborator-defined fault; which calls are
    made to fail, and with what, and in which order the three lookups
    settle. *)
Record FaultPlan : Type :=
  { on_findLatestByNameTagCombination : option StorageError;
    on_findOneByIdOrName : option StorageError;
    on_findOneByIdOrUrlMatcher : option StorageError;
    on_apps_create : option StorageError;
    on_entrypoints_create : option StorageError;
    on_entrypoints_update : option StorageError;
    on_logOperation : Operation → option StorageError;
    lookups_order : race }.

Definition reliable : FaultPlan :=
  {| on_findLatestByNameTagCombination := None;
     on_findOneByIdOrName := None;
     on_findOneByIdOrUrlMatcher := None;
     on_apps_create := None;
     on_entrypoints_create := None;
     on_entrypoints_update := None;
     on_logOperation := λ _, None;
     lookups_order := R123 |}.

Definition unless {X} (planned : option StorageError) (x : X)
    : @settled StorageError X :=
  match planned with
  | Some f => Rejected f
  | None => Fulfilled x
  end.

Definition unless_on {X} (planned : option StorageError) (s : Store)
    (x : @settled StorageError X * Store) : @settled StorageError X * Store :=
  match planned with
  | Some f => (Rejected f, s)
  | None => x
  end.

(** Modelled from the spec: the collaborators of section 6 over the
    store.  [matcher_ok] is the rule of [ValidateUrlMatcher]; as the
    handler's comment says, creating an entrypoint fails for a matcher
    that does not pass it. *)
Definition storage (matcher_ok : string → bool) (plan : FaultPlan)
    : @Collaborators StorageError Store :=
  {| bundles_findLatestByNameTagCombination ref s :=
       unless (on_findLatestByNameTagCombination plan)
              (findLatestByNameTagCombination ref s);
     apps_findOneByIdOrName ref s :=
       unless (on_findOneByIdOrName plan) (findOneByIdOrName ref s);
     entrypoints_findOneByIdOrUrlMatcher ref s :=
       unless (on_findOneByIdOrUrlMatcher plan)
              (findOneByIdOrUrlMatcher ref s);
     validateEntrypointUrlMatcher u :=
       if matcher_ok u then Fulfilled ()
       else Rejected (UrlMatcherNotValidError u);
     apps_create partial s :=
       unless_on (on_apps_create plan) s
         (let '(app, s') := create_app partial s in (Fulfilled app, s'));
     entrypoints_create partial s :=
       unless_on (on_entrypoints_create plan) s
         (if matcher_ok (Entrypoint.p_urlMatcher partial) then
            let '(e, s') := create_entrypoint partial s in (Fulfilled e, s')
          else
            (Rejected (UrlMatcherNotValidError
                         (Entrypoint.p_urlMatcher partial)), s));
     entrypoints_update id patch s :=
       unless_on (on_entrypoints_update plan) s
         (match update_entrypoint id patch s with
          | Some (e, s') => (Fulfilled e, s')
          | None => (Rejected (EntrypointNotFoundError id), s)
          end);
     logOperation op payload s :=
       unless_on (on_logOperation plan op) s
         (Fulfilled (), append_log op payload s);
     lookups_settle _ := lookups_order plan |}.

(** Modelled from the spec: [ValidateUrlMatcher(string)], whose rule
    the spec leaves to the storage; as a stand-in, a matcher needs a
    host and a path, so a slash. *)
Definition has_slash (u : string) : bool :=
  bool_decide (is_Some (String.index 0 "/" u)).
End Memory.

(** ** The handler against its collaborators *)

Definition deploy {Fault W : Type} {C : @Collaborators Fault W}
    (req : IRequest) (w : W)
    : list (@event Fault) * @outcome Fault unit * W :=
  run (handler req) w.

(** The handler against the in-memory storage. *)
Definition deploy_in_memory (matcher_ok : string → bool)
    (plan : Memory.FaultPlan) (req : IRequest) (s : Memory.Store) :=
  @deploy _ _ (Memory.storage matcher_ok plan) req s.

(** The same request once more, on the store the first call left. *)
Definition deploy_again (matcher_ok : string → bool)
    (plan : Memory.FaultPlan) (req : IRequest) (s : Memory.Store) :=
  deploy_in_memory matcher_ok plan req
    (final (deploy_in_memory matcher_ok plan req s)).

(** ** Sample stores and requests *)

Module Sample.
Import Memory.

(** A bundle [site:v1], nothing else. *)
Definition only_bundle : Store :=
  {| bundles := [Bundle.mk "b1" "site" "v1"];
     apps := [];
     entrypoints := [];
     operationLogs := [] |}.

(** The app exists, its entrypoint does not. *)
Definition with_app : Store :=
  {| bundles := [Bundle.mk "b1" "site" "v1"];
     apps := [App.mk "a1" "acme" ∅];
     entrypoints := [];
     operationLogs := [] |}.

(** The entrypoint for the matcher belongs to another app, [a2]. *)
Definition foreign_entrypoint : Store :=
  {| bundles := [Bundle.mk "b2" "site" "v2"];
     apps := [App.mk "a1" "acme" ∅];
     entrypoints :=
       [Entrypoint.mk "e1" "a2" "acme.example.com/" None None];
     operationLogs := [] |}.

Definition acme_v1 : IRequest :=
  {| appName := "acme";
     entrypointUrlMatcher := "acme.example.com/";
     bundleNameTagCombination := "site:v1" |}.

Definition acme_v2 : IRequest :=
  {| appName := "acme";
     entrypointUrlMatcher := "acme.example.com/";
     bundleNameTagCombination := "site:v2" |}.

(** A matcher without a path. *)
Definition acme_malformed : IRequest :=
  {| appName := "acme";
     entrypointUrlMatcher := "acme.example.com";
     bundleNameTagCombination := "site:v1" |}.

(** An unknown app name, and the id of an existing entrypoint where
    the matcher is expected. *)
Definition other_by_id : IRequest :=
  {| appName := "other";
     entrypointUrlMatcher := "e1";
     bundleNameTagCombination := "site:v2" |}.

(** Creating entrypoints is out of order. *)
Definition entrypoints_create_down : FaultPlan :=
  {| on_findLatestByNameTagCombination := None;
     on_findOneByIdOrName := None;
     on_findOneByIdOrUrlMatcher := None;
     on_apps_create := None;
     on_entrypoints_create := Some (GenericStorageError "down");
     on_entrypoints_update := None;
     on_logOperation := λ _, None;
     lookups_order := R123 |}.
End Sample.

(** Two entrypoint records that agree on every field but [bundleId]. *)
Definition same_but_bundle (e e' : Entrypoint.t) : Prop :=
  Entrypoint.id e' = Entrypoint.id e ∧
  Entrypoint.appId e' = Entrypoint.appId e ∧
  Entrypoint.urlMatcher e' = Entrypoint.urlMatcher e ∧
  Entrypoint.configuration e' = Entrypoint.configuration e.

(** The store holds the entrypoint [e], up to its bundle reference. *)
Definition stored_entrypoint (e : Entrypoint.t) (s : Memory.Store) : Prop :=
  ∃ e', e' ∈ Memory.entrypoints s ∧ same_but_bundle e e'.

(** ** The steps of a successful deploy *)

Section Steps.
Context {Fault W : Type} {C : @Collaborators Fault W}.

(** [const [bundle, existingApp, existingEntrypoint] = await Promise.all(...)]
    binds these three values. *)
Definition retrieved (req : IRequest) (w : W) (bundle : option Bundle.t)
    (existingApp : option App.t) (existingEntrypoint : option Entrypoint.t)
    : Prop :=
  Promise_all (lookups_settle w)
    (bundles_findLatestByNameTagCombination (bundleNameTagCombination req) w)
    (apps_findOneByIdOrName (appName req) w)
    (entrypoints_findOneByIdOrUrlMatcher (entrypointUrlMatcher req) w)
  = Fulfilled (bundle, existingApp, existingEntrypoint).

Definition lookup_events (req : IRequest) (b : Bundle.t)
    (oa : option App.t) (oe : option Entrypoint.t) : list (@event Fault) :=
  [Event (FindLatestByNameTagCombination (bundleNameTagCombination req))
         (Fulfilled (Some b));
   Event (FindOneByIdOrName (appName req)) (Fulfilled oa);
   Event (FindOneByIdOrUrlMatcher (entrypointUrlMatcher req))
         (Fulfilled oe)].

(** The three lookups completed, the bundle is there, and the
    entrypoint found, if any, links to the app found. *)
Definition looked_up (req : IRequest) (w : W) (b : Bundle.t)
    (oa : option App.t) (oe : option Entrypoint.t) : Prop :=
  bundles_findLatestByNameTagCombination (bundleNameTagCombination req) w
    = Fulfilled (Some b) ∧
  apps_findOneByIdOrName (appName req) w = Fulfilled oa ∧
  entrypoints_findOneByIdOrUrlMatcher (entrypointUrlMatcher req) w
    = Fulfilled oe ∧
  doesnt_link oa oe = false.

Definition new_app (req : IRequest) : App.partial :=
  {| App.p_name := appName req; App.p_defaultConfiguration := ∅ |}.

Definition new_entrypoint (req : IRequest) (app : App.t)
    : Entrypoint.partial :=
  {| Entrypoint.p_appId := App.id app;
     Entrypoint.p_urlMatcher := entrypointUrlMatcher req;
     Entrypoint.p_configuration := None |}.

(** Create the app if it doesn't exist, each call going through:
    from world [w] the handler ends up holding [app], in world [w1],
    having made the calls [t]. *)
Definition app_step (req : IRequest) (oa : option App.t) (w : W)
    (app : App.t) (w1 : W) (t : list (@event Fault)) : Prop :=
  match oa with
  | Some a => app = a ∧ w1 = w ∧ t = []
  | None =>
      ∃ w',
        validateEntrypointUrlMatcher (entrypointUrlMatcher req)
          = Fulfilled () ∧
        apps_create (new_app req) w = (Fulfilled app, w') ∧
        logOperation createApp (CreatedApp app) w' = (Fulfilled (), w1) ∧
        t = [Event (ValidateEntrypointUrlMatcher (entrypointUrlMatcher req))
                   (Fulfilled ());
             Event (AppsCreate (new_app req)) (Fulfilled app);
             Event (LogOperation createApp (CreatedApp app)) (Fulfilled ())]
  end.

(** Create the entrypoint if it doesn't exist, likewise. *)
Definition entrypoint_step (req : IRequest) (app : App.t)
    (oe : option Entrypoint.t) (w : W)
    (entrypoint : Entrypoint.t) (w1 : W) (t : list (@event Fault)) : Prop :=
  match oe with
  | Some e => entrypoint = e ∧ w1 = w ∧ t = []
  | None =>
      ∃ w',
        entrypoints_create (new_entrypoint req app) w
          = (Fulfilled entrypoint, w') ∧
        logOperation createEntrypoint (CreatedEntrypoint entrypoint) w'
          = (Fulfilled (), w1) ∧
        t = [Event (EntrypointsCreate (new_entrypoint req app))
                   (Fulfilled entrypoint);
             Event (LogOperation createEntrypoint
                      (CreatedEntrypoint entrypoint)) (Fulfilled ())]
  end.

(** Update the entrypoint to point it to the supplied bundle, and
    the response. *)
Definition link_step (b : Bundle.t) (entrypoint : Entrypoint.t) (w : W)
    (newEntrypoint : Entrypoint.t) (w1 : W) (t : list (@event Fault))
    : Prop :=
  ∃ w',
    entrypoints_update (Entrypoint.id entrypoint)
        (Entrypoint.bundleId_only (Bundle.id b)) w
      = (Fulfilled newEntrypoint, w') ∧
    logOperation updateEntrypoint
        (UpdatedEntrypoint entrypoint newEntrypoint) w'
      = (Fulfilled (), w1) ∧
    t = [Event (EntrypointsUpdate (Entrypoint.id entrypoint)
                  (Entrypoint.bundleId_only (Bundle.id b)))
               (Fulfilled newEntrypoint);
         Event (LogOperation updateEntrypoint
                  (UpdatedEntrypoint entrypoint newEntrypoint))
               (Fulfilled ());
         Event (Send 204 None) (Fulfilled ())].

(** All the steps of a deploy in which every call goes through. *)
Definition deployed (req : IRequest) (w : W) (b : Bundle.t)
    (oa : option App.t) (oe : option Entrypoint.t) (app : App.t)
    (entrypoint newEntrypoint : Entrypoint.t) (w' : W)
    (t : list (@event Fault)) : Prop :=
  ∃ w1 w2 t1 t2 t3,
    looked_up req w b oa oe ∧
    app_step req oa w app w1 t1 ∧
    entrypoint_step req app oe w1 entrypoint w2 t2 ∧
    link_step b entrypoint w2 newEntrypoint w' t3 ∧
    t = lookup_events req b oa oe ++ t1 ++ t2 ++ t3.
End Steps.

(** ** The declaration of the route *)

(** A JSON value, as a request body is once parsed.  Numbers carry an
    integer: nothing here looks inside a number. *)
#[warnings="-register-all"]
Inductive JSON : Type :=
  | JNull
  | JBoolean (b : bool)
  | JNumber (n : Z)
  | JString (s : string)
  | JArray (items : list JSON)
  | JObject (members : gmap string JSON).

Module Schema.
(** The schema of one property, [{ type: ... }]. *)
Record property : Type := mkProperty { p_type : string }.

(** A schema with the keywords [bodySchema] uses. *)
Record t : Type :=
  mk { type : string;
       properties : gmap string property;
       required : list string;
       additionalProperties : bool }.

(** The name JSON Schema gives the type of a value. *)
Definition type_of (v : JSON) : string :=
  match v with
  | JNull => "null"
  | JBoolean _ => "boolean"
  | JNumber _ => "number"
  | JString _ => "string"
  | JArray _ => "array"
  | JObject _ => "object"
  end.

(** Modelled from the spec: the validation of the body against the
    schema, done by the routing layer ([common/convroute], not part
    of the sources at hand) before the handler runs: all of
    [required] must be there, a member named in [properties] must
    have the type given there, a member not named there is accepted
    only if [additionalProperties] says so. *)
Definition member_ok (schema : t) (key : string) (v : JSON) : bool :=
  match properties schema !! key with
  | Some p => bool_decide (type_of v = p_type p)
  | None => additionalProperties schema
  end.

(** Modelled from the spec: see [member_ok]. *)
Definition validate (schema : t) (v : JSON) : bool :=
  bool_decide (type_of v = type schema) &&
  match v with
  | JObject members =>
      forallb (λ key, bool_decide (is_Some (members !! key)))
              (required schema) &&
      bool_decide (map_Forall (λ key v, member_ok schema key v = true) members)
  | _ => true
  end.
End Schema.

Definition bodySchema : Schema.t :=
  {| Schema.type := "object";
     Schema.properties :=
       {[ "appName" := Schema.mkProperty "string";
          "entrypointUrlMatcher" := Schema.mkProperty "string";
          "bundleNameTagCombination" := Schema.mkProperty "string" ]};
     Schema.required :=
       ["appName"; "entrypointUrlMatcher"; "bundleNameTagCombination"];
     Schema.additionalProperties := false |}.

(** The body that carries a request. *)
Definition body_of (req : IRequest) : JSON :=
  JObject {[ "appName" := JString (appName req);
             "entrypointUrlMatcher" := JString (entrypointUrlMatcher req);
             "bundleNameTagCombination" :=
               JString (bundleNameTagCombination req) ]}.

(** The argument of [convroute], but for the handler. *)
Module Route.
Record parameter : Type :=
  mkParameter { name : string;
                in_ : string;
                required : bool;
                schema : Schema.t }.

Definition path : string := "/deploy".
Definition method : string := "post".
Definition description : string := "Deploy a bundle to an entrypoint".
Definition tags : list string := ["deployments"].
Definition parameters : list parameter :=
  [ {| name := "deploymentOptions";
       in_ := "body";
       required := true;
       schema := bodySchema |} ].

(** Status codes with their descriptions. *)
Definition responses : list (string * string) :=
  [ ("204", "Bundle deployed to entrypoint");
    ("400", "Body validation failed");
    ("404", "Bundle not found");
    ("409", "Entrypoint does not link to the app") ].
End Route.

(** The status codes sent on [res]. *)
Definition statuses {Fault : Type} (t : list (@event Fault)) : list Z :=
  (responses t).*1.

(** The operation under which a creation or an update is logged. *)
Definition operation_of (k : kind) : option Operation :=
  match k with
  | KAppsCreate => Some createApp
  | KEntrypointsCreate => Some createEntrypoint
  | KEntrypointsUpdate => Some updateEntrypoint
  | _ => None
  end.

(** Where lookups fail: the bundle lookup and the app lookup are both
    out of order, and the app lookup is the first to settle. *)
Definition lookups_down : Memory.FaultPlan :=
  {| Memory.on_findLatestByNameTagCombination :=
       Some (Memory.GenericStorageError "bundles down");
     Memory.on_findOneByIdOrName :=
       Some (Memory.GenericStorageError "apps down");
     Memory.on_findOneByIdOrUrlMatcher := None;
     Memory.on_apps_create := None;
     Memory.on_entrypoints_create := None;
     Memory.on_entrypoints_update := None;
     Memory.on_logOperation := λ _, None;
     Memory.lookups_order := R213 |}.

(** The app and its entrypoint both exist and are linked. *)
Definition deployed_before : Memory.Store :=
  {| Memory.bundles := [Bundle.mk "b1" "site" "v1"];
     Memory.apps := [App.mk "a1" "acme" ∅];
     Memory.entrypoints :=
       [Entrypoint.mk "e1" "a1" "acme.example.com/" None None];
     Memory.operationLogs := [] |}.

(** * Properties *)

(** When all three are fulfilled, the order does not matter. *)
Lemma Promise_all_fulfilled {Fault X Y Z} (order : race) (x : X) (y : Y)
    (z : Z) :
  @Promise_all Fault X Y Z order (Fulfilled x) (Fulfilled y) (Fulfilled z)
    = Fulfilled (x, y, z).
Proof. by destruct order. Qed.

(** Case analysis on how each collaborator call of the goal settles. *)
Ltac settle :=
  repeat (simpl;
    match goal with
    | |- context [bundles_findLatestByNameTagCombination ?r ?w] =>
        destruct (bundles_findLatestByNameTagCombination r w)
          as [[?|]|?] eqn:?
    | |- context [apps_findOneByIdOrName ?r ?w] =>
        destruct (apps_findOneByIdOrName r w) as [[?|]|?] eqn:?
    | |- context [entrypoints_findOneByIdOrUrlMatcher ?r ?w] =>
        destruct (entrypoints_findOneByIdOrUrlMatcher r w)
          as [[?|]|?] eqn:?
    | |- context [Promise_all ?o (Fulfilled ?x) (Fulfilled ?y) (Fulfilled ?z)] =>
        rewrite (Promise_all_fulfilled o x y z)
    | |- context [Promise_all (lookups_settle ?w) _ _ _] =>
        destruct (lookups_settle w) eqn:?; unfold Promise_all
    | |- context [if negb (String.eqb ?x ?y) then _ else _] =>
        destruct (String.eqb_spec x y)
    | |- context [validateEntrypointUrlMatcher ?u] =>
        destruct (validateEntrypointUrlMatcher u) as [[]|?] eqn:?
    | |- context [apps_create ?p ?w] =>
        destruct (apps_create p w) as [[?|?] ?] eqn:?
    | |- context [entrypoints_create ?p ?w] =>
        destruct (entrypoints_create p w) as [[?|?] ?] eqn:?
    | |- context [entrypoints_update ?i ?p ?w] =>
        destruct (entrypoints_update i p w) as [[?|?] ?] eqn:?
    | |- context [logOperation ?o ?p ?w] =>
        destruct (logOperation o p w) as [[[]|?] ?] eqn:?
    end).

(** Every execution of the handler, one goal per way the calls settle. *)
Ltac executions := unfold deploy, handler; settle; simpl.

Section DeployFacts.
Context {Fault W : Type} {C : @Collaborators Fault W}.
Implicit Types (req : IRequest) (w : W).

(** The three lookups open every execution. *)
Lemma lookups_first req w :
  take 3 (kinds (trace (deploy req w)))
    = [KFindBundle; KFindApp; KFindEntrypoint].
Proof. executions; reflexivity. Qed.

(** An app is only ever created right after its matcher was checked
    and found well formed. *)
Lemma validation_precedes_app_creation req w i :
  kinds (trace (deploy req w)) !! i = Some KAppsCreate →
  ∃ j, i = S j ∧
    trace (deploy req w) !! j
      = Some (Event (ValidateEntrypointUrlMatcher (entrypointUrlMatcher req))
                    (Fulfilled ())).
Proof.
  executions.
  all: repeat (destruct i as [|i]; simpl; try discriminate).
  all: intros _; eexists; split; [reflexivity|reflexivity].
Qed.

(** The values bound by the joined lookups are what each lookup was
    fulfilled with. *)
Lemma retrieved_inv req w ob oa oe :
  retrieved req w ob oa oe →
  bundles_findLatestByNameTagCombination (bundleNameTagCombination req) w
    = Fulfilled ob ∧
  apps_findOneByIdOrName (appName req) w = Fulfilled oa ∧
  entrypoints_findOneByIdOrUrlMatcher (entrypointUrlMatcher req) w
    = Fulfilled oe.
Proof.
  unfold retrieved.
  destruct (bundles_findLatestByNameTagCombination _ _),
    (apps_findOneByIdOrName _ _),
    (entrypoints_findOneByIdOrUrlMatcher _ _), (lookups_settle w);
    unfold Promise_all; simpl; try discriminate.
  all: by intros [= -> -> ->].
Qed.

(** C2: when the lookups bind no bundle, the handler throws
    [BundleNotFoundError] for the requested name:tag combination; it
    has made the three lookups and nothing else (no creation, no
    update, no log entry), and the world is as it was. *)
Theorem bundle_absent_not_found req w oa oe :
  retrieved req w None oa oe →
  result (deploy req w)
    = Raised (BundleNotFoundError (bundleNameTagCombination req)
                                  "name:tag combination") ∧
  kinds (trace (deploy req w)) = [KFindBundle; KFindApp; KFindEntrypoint] ∧
  mutations (trace (deploy req w)) = [] ∧
  audit_emitted (trace (deploy req w)) = [] ∧
  final (deploy req w) = w.
Proof.
  intros (Hb & Ha & He)%retrieved_inv. unfold deploy, handler. simpl.
  rewrite Hb, Ha, He, Promise_all_fulfilled. simpl. done.
Qed.

(** C3: when the lookups bind a bundle and an entrypoint, and either no
    app or an app that is not the entrypoint's, the handler sends [409]
    with the mismatch message and returns normally (nothing is
    thrown); it has made no creation and no update, logged nothing,
    and the world is as it was. *)
Theorem entrypoint_app_mismatch_conflict req w b oa e :
  retrieved req w (Some b) oa (Some e) →
  (oa = None ∨ ∃ a, oa = Some a ∧ App.id a ≠ Entrypoint.appId e) →
  result (deploy req w) = Returned () ∧
  responses (trace (deploy req w))
    = [(409%Z, Some (conflict_message req))] ∧
  kinds (trace (deploy req w))
    = [KFindBundle; KFindApp; KFindEntrypoint; KSend] ∧
  mutations (trace (deploy req w)) = [] ∧
  audit_emitted (trace (deploy req w)) = [] ∧
  final (deploy req w) = w.
Proof.
  intros (Hb & Ha & He)%retrieved_inv Hmis. unfold deploy, handler. simpl.
  rewrite Hb, Ha, He, Promise_all_fulfilled. simpl.
  destruct Hmis as [->|(a & -> & Hne)]; simpl; [done|].
  apply String.eqb_neq in Hne. rewrite Hne. simpl. done.
Qed.

(** C4, as amended: when the lookups bind a bundle, no app and no
    entrypoint, and the matcher check fails, the handler throws what
    the check threw; no app is created (no creation or update is even
    asked for) and the world is as it was.  In every execution a call
    to create the app comes right after a matcher check that passed. *)
Theorem invalid_matcher_no_orphan_app req w b f :
  retrieved req w (Some b) None None →
  validateEntrypointUrlMatcher (entrypointUrlMatcher req) = Rejected f →
  result (deploy req w) = Raised (CollaboratorFault f) ∧
  kinds (trace (deploy req w))
    = [KFindBundle; KFindApp; KFindEntrypoint; KValidate] ∧
  created_apps (trace (deploy req w)) = [] ∧
  mutations (trace (deploy req w)) = [] ∧
  final (deploy req w) = w ∧
  (∀ req' (w' : W) i,
     kinds (trace (deploy req' w')) !! i = Some KAppsCreate →
     ∃ j, i = S j ∧
       trace (deploy req' w') !! j
         = Some (Event (ValidateEntrypointUrlMatcher
                          (entrypointUrlMatcher req'))
                       (Fulfilled ()))).
Proof.
  intros (Hb & Ha & He)%retrieved_inv Hv. split_and!;
    [..|apply validation_precedes_app_creation].
  all: unfold deploy, handler; simpl; rewrite Hb, Ha, He, Promise_all_fulfilled; simpl.
  all: rewrite Hv; simpl; done.
Qed.

(** A deploy whose calls all go through succeeds. *)
Lemma deployed_succeeds req w b oa oe app e new w' t :
  deployed req w b oa oe app e new w' t →
  deploy req w = (t, Returned (), w').
Proof.
  intros (w1 & w2 & t1 & t2 & t3 & (Hb & Ha & He & Hl) & H1 & H2 & H3 & ->).
  destruct H3 as (w3 & Hu & Hlu & ->).
  unfold deploy, handler. simpl. rewrite Hb, Ha, He, Promise_all_fulfilled. simpl. rewrite Hl.
  unfold app_step, entrypoint_step, new_app, new_entrypoint in *.
  destruct oa as [a|]; simpl in H1.
  - destruct H1 as (-> & -> & ->).
    destruct oe as [e0|]; simpl in H2.
    + destruct H2 as (-> & -> & ->). simpl. rewrite Hu. simpl. rewrite Hlu. reflexivity.
    + destruct H2 as (w4 & Hc & Hlc & ->). 
      simpl. rewrite Hc. simpl. rewrite Hlc. simpl. rewrite Hu. simpl.
      rewrite Hlu. reflexivity.
  - destruct H1 as (w4 & Hv & Hc & Hlc & ->).
    simpl. rewrite Hv. simpl. rewrite Hc. simpl. rewrite Hlc.
    destruct oe as [e0|]; simpl in H2.
    + destruct H2 as (-> & -> & ->). simpl. rewrite Hu. simpl. rewrite Hlu. reflexivity.
    + destruct H2 as (w5 & Hc' & Hlc' & ->).
      simpl. rewrite Hc'. simpl. rewrite Hlc'. simpl. rewrite Hu. simpl.
      rewrite Hlu. reflexivity.
Qed.

(** A successful deploy is one whose calls all went through. *)
Lemma succeeded_deployed req w :
  succeeded (deploy req w) →
  ∃ b oa oe app e new,
    deployed req w b oa oe app e new (final (deploy req w))
             (trace (deploy req w)).
Proof.
  unfold succeeded.
  executions; intros [Hr Hs]; try discriminate.
  all: unfold final, trace, deployed, looked_up; simpl.
  all: repeat match goal with
       | n : _ ≠ _ |- _ => clear n
       | e : _ = _ :> string |- _ => apply String.eqb_eq in e
       end.
  all: do 6 eexists; do 5 eexists.
  all: split_and!; try eassumption.
  all: unfold app_step, entrypoint_step, link_step, new_app, new_entrypoint.
  all: simpl; try done.
  all: try (rewrite negb_false_iff; eassumption).
  all: try (eexists; split_and!; try eassumption; reflexivity).
Qed.
(** Returning without having sent [409] is succeeding. *)
Lemma returned_without_conflict req w :
  result (deploy req w) = Returned () →
  409%Z ∉ (responses (trace (deploy req w))).*1 →
  succeeded (deploy req w).
Proof.
  unfold succeeded. executions; intros Hr Hno; try discriminate.
  all: try (split; reflexivity).
  all: exfalso; apply Hno; unfold responses; simpl; left.
Qed.

(** No call is made twice. *)
Lemma no_call_repeated req w : NoDup (kinds (trace (deploy req w))).
Proof.
  executions.
  all: compute_done.
Qed.

(** What the handler throws is [BundleNotFoundError] or, untouched,
    what a collaborator threw. *)
Lemma raised_is_propagated req w e :
  result (deploy req w) = Raised e →
  e = BundleNotFoundError (bundleNameTagCombination req)
                          "name:tag combination" ∨
  ∃ f, e = CollaboratorFault f ∧ f ∈ rejections (trace (deploy req w)).
Proof.
  executions; intros [= <-]; eauto.
  all: right; eexists; split; [reflexivity|].
  all: unfold rejections; simpl; set_solver.
Qed.

(** Past the lookups, a call that fails is the last one made, and
    what it threw is what the handler throws. *)
Lemma rejection_ends_execution req w i f :
  (3 ≤ i)%nat →
  rejected_with <$> trace (deploy req w) !! i = Some (Some f) →
  result (deploy req w) = Raised (CollaboratorFault f) ∧
  length (trace (deploy req w)) = S i.
Proof.
  intros Hi. do 3 (destruct i as [|i]; [lia|]). clear Hi. revert i.
  executions; intros i.
  all: repeat (destruct i as [|i]; simpl; try discriminate).
  all: intros [= <-]; split; reflexivity.
Qed.

(** C7: in every execution the calls to [req.logOperation] are, in
    order and with their payloads, exactly what the creations and the
    update that went through call for: the created app, the created
    entrypoint, the entrypoint before and after the update.  So there
    are as many [createApp] entries as apps created, as many
    [createEntrypoint] entries as entrypoints created, as many
    [updateEntrypoint] entries as updates performed, at most one of
    each, in the order createApp, createEntrypoint, updateEntrypoint. *)
Theorem audit_one_to_one req w :
  audit_emitted (trace (deploy req w))
    = audit_due None (trace (deploy req w)) ∧
  sublist (audit_emitted (trace (deploy req w))).*1
          [createApp; createEntrypoint; updateEntrypoint] ∧
  length (emitted_of createApp (trace (deploy req w)))
    = length (created_apps (trace (deploy req w))) ∧
  length (emitted_of createEntrypoint (trace (deploy req w)))
    = length (created_entrypoints (trace (deploy req w))) ∧
  length (emitted_of updateEntrypoint (trace (deploy req w)))
    = length (updated_entrypoints (trace (deploy req w))).
Proof.
  executions.
  all: split_and!; try reflexivity.
  all: repeat first [apply sublist_nil | apply sublist_skip | apply sublist_cons].
Qed.

(** C9, as amended: when the lookups bind a bundle and an app but no
    entrypoint, the handler goes straight from the lookups to creating
    the entrypoint for that app, and the matcher check is never
    called.  In every execution the matcher check is called only if
    the app lookup found nothing, so only then can the handler throw
    what the check throws. *)
Theorem validation_only_without_app req w b a :
  retrieved req w (Some b) (Some a) None →
  validations (trace (deploy req w)) = [] ∧
  take 4 (kinds (trace (deploy req w)))
    = [KFindBundle; KFindApp; KFindEntrypoint; KEntrypointsCreate] ∧
  omap entrypoint_requested (trace (deploy req w))
    = [new_entrypoint req a] ∧
  (∀ req' (w' : W),
     validations (trace (deploy req' w')) ≠ [] →
     apps_findOneByIdOrName (appName req') w' = Fulfilled None).
Proof.
  intros (Hb & Ha & He)%retrieved_inv. split_and!.
  4: { clear. intros req' w'. executions; congruence. }
  all: unfold deploy, handler; simpl; rewrite Hb, Ha, He, Promise_all_fulfilled; simpl.
  all: settle; reflexivity.
Qed.

(** What a deploy whose calls all went through shows in its trace. *)
Lemma deployed_observed req w b oa oe app e new w' t :
  deployed req w b oa oe app e new w' t →
  kinds t
    = [KFindBundle; KFindApp; KFindEntrypoint] ++
      (if oa is Some _ then []
       else [KValidate; KAppsCreate; KLogOperation createApp]) ++
      (if oe is Some _ then []
       else [KEntrypointsCreate; KLogOperation createEntrypoint]) ++
      [KEntrypointsUpdate; KLogOperation updateEntrypoint; KSend] ∧
  omap app_requested t = (if oa is Some _ then [] else [new_app req]) ∧
  created_apps t = (if oa is Some _ then [] else [app]) ∧
  omap entrypoint_requested t
    = (if oe is Some _ then [] else [new_entrypoint req app]) ∧
  created_entrypoints t = (if oe is Some _ then [] else [e]) ∧
  omap update_requested t
    = [(Entrypoint.id e, Entrypoint.bundleId_only (Bundle.id b))] ∧
  updated_entrypoints t = [new] ∧
  responses t = [(204%Z, None)].
Proof.
  intros (w1 & w2 & t1 & t2 & t3 & _ & H1 & H2 & H3 & ->).
  destruct H3 as (w3 & _ & _ & ->).
  unfold app_step in H1. unfold entrypoint_step in H2.
  destruct oa as [a|], oe as [e0|].
  - destruct H1 as (_ & _ & ->), H2 as (_ & _ & ->). done.
  - destruct H1 as (_ & _ & ->), H2 as (? & _ & _ & ->). done.
  - destruct H1 as (? & _ & _ & _ & ->), H2 as (_ & _ & ->). done.
  - destruct H1 as (? & _ & _ & _ & ->), H2 as (? & _ & _ & ->). done.
Qed.

(** Whatever holds of a created app or entrypoint in the world its
    creation left, and is kept by every later call however it settles,
    holds in the world the handler leaves. *)
Section Persistence.
Context (StoredApp : App.t → W → Prop).
Context (StoredEntrypoint : Entrypoint.t → W → Prop).
Hypothesis apps_create_stores : ∀ p w a w',
  apps_create p w = (Fulfilled a, w') → StoredApp a w'.
Hypothesis entrypoints_create_stores : ∀ p w e w',
  entrypoints_create p w = (Fulfilled e, w') → StoredEntrypoint e w'.
Hypothesis entrypoints_create_keeps_app : ∀ p w r w' a,
  entrypoints_create p w = (r, w') → StoredApp a w → StoredApp a w'.
Hypothesis entrypoints_update_keeps_app : ∀ i b w r w' a,
  entrypoints_update i (Entrypoint.bundleId_only b) w = (r, w') →
  StoredApp a w → StoredApp a w'.
Hypothesis logOperation_keeps_app : ∀ o p w r w' a,
  logOperation o p w = (r, w') → StoredApp a w → StoredApp a w'.
Hypothesis entrypoints_update_keeps_entrypoint : ∀ i b w r w' e,
  entrypoints_update i (Entrypoint.bundleId_only b) w = (r, w') →
  StoredEntrypoint e w → StoredEntrypoint e w'.
Hypothesis logOperation_keeps_entrypoint : ∀ o p w r w' e,
  logOperation o p w = (r, w') →
  StoredEntrypoint e w → StoredEntrypoint e w'.

Lemma created_records_persist req w :
  (∀ a, a ∈ created_apps (trace (deploy req w)) →
        StoredApp a (final (deploy req w))) ∧
  (∀ e, e ∈ created_entrypoints (trace (deploy req w)) →
        StoredEntrypoint e (final (deploy req w))).
Proof.
  executions; unfold final, created_apps, created_entrypoints; simpl.
  all: split; intros ? ?.
  all: repeat match goal with
       | H : _ ∈ [] |- _ => by apply not_elem_of_nil in H
       | H : _ ∈ [_] |- _ => apply list_elem_of_singleton in H; subst
       end.
  all: eauto 10.
Qed.

(** C8: when a call made after the lookups fails, the handler makes no
    further call (none is repeated, nothing is undone) and throws what
    that call threw; anything it throws is [BundleNotFoundError] or,
    untouched, what a collaborator threw; and, the storage keeping
    what it stores, every app and entrypoint created on the way is
    stored in the world the handler leaves. *)
Theorem no_retry_no_rollback req w i f :
  (3 ≤ i)%nat →
  rejected_with <$> trace (deploy req w) !! i = Some (Some f) →
  result (deploy req w) = Raised (CollaboratorFault f) ∧
  length (trace (deploy req w)) = S i ∧
  NoDup (kinds (trace (deploy req w))) ∧
  (∀ a, a ∈ created_apps (trace (deploy req w)) →
        StoredApp a (final (deploy req w))) ∧
  (∀ e, e ∈ created_entrypoints (trace (deploy req w)) →
        StoredEntrypoint e (final (deploy req w))) ∧
  (∀ req' (w' : W) err,
     result (deploy req' w') = Raised err →
     err = BundleNotFoundError (bundleNameTagCombination req')
                               "name:tag combination" ∨
     ∃ f', err = CollaboratorFault f' ∧
           f' ∈ rejections (trace (deploy req' w'))).
Proof.
  intros Hi Hf.
  destruct (rejection_ends_execution _ _ _ _ Hi Hf) as [Hr Hlen].
  destruct (created_records_persist req w) as [Ha He].
  split_and!; try done.
  - apply no_call_repeated.
  - intros req' w' err. apply raised_is_propagated.
Qed.
End Persistence.

(** Every update the handler asks for carries a bundle id and nothing
    else. *)
Lemma updates_carry_bundleId_only req w :
  Forall (λ request, ∃ b, request.2 = Entrypoint.bundleId_only b)
         (omap update_requested (trace (deploy req w))).
Proof.
  executions; repeat constructor; simpl; eauto.
Qed.

(** What a deploy that returns without having sent [409] has asked
    for: it has sent [204] with no body, once, and asked for one
    update, which went through, of the resolved entrypoint (the one
    found, or else the one just created), with a patch that sets
    [bundleId] to the id of the bundle found and carries no other
    field. *)
Lemma returned_deploy_requested_update req w :
  result (deploy req w) = Returned () →
  409%Z ∉ (responses (trace (deploy req w))).*1 →
  responses (trace (deploy req w)) = [(204%Z, None)] ∧
  (∃ b e new,
     bundles_findLatestByNameTagCombination (bundleNameTagCombination req) w
       = Fulfilled (Some b) ∧
     (entrypoints_findOneByIdOrUrlMatcher (entrypointUrlMatcher req) w
        = Fulfilled (Some e) ∨
      entrypoints_findOneByIdOrUrlMatcher (entrypointUrlMatcher req) w
        = Fulfilled None ∧
      created_entrypoints (trace (deploy req w)) = [e]) ∧
     omap update_requested (trace (deploy req w))
       = [(Entrypoint.id e,
           {| Entrypoint.u_appId := None;
              Entrypoint.u_bundleId := Some (Some (Bundle.id b));
              Entrypoint.u_urlMatcher := None;
              Entrypoint.u_configuration := None |})] ∧
     updated_entrypoints (trace (deploy req w)) = [new] ∧
     last (audit_emitted (trace (deploy req w)))
       = Some (updateEntrypoint, UpdatedEntrypoint e new)) ∧
  (∀ req' (w' : W),
     Forall (λ request, ∃ b, request.2 = Entrypoint.bundleId_only b)
            (omap update_requested (trace (deploy req' w')))).
Proof.
  intros Hr Hno.
  pose proof (returned_without_conflict _ _ Hr Hno) as Hs.
  split_and!; [apply Hs| |apply updates_carry_bundleId_only].
  apply succeeded_deployed in Hs as (b & oa & oe & app & e & new & Hd).
  pose proof (deployed_observed _ _ _ _ _ _ _ _ _ _ Hd)
    as (_ & _ & _ & _ & Hce & Hup & Hnew & _).
  destruct Hd as (w1 & w2 & t1 & t2 & t3 & (Hb & _ & He & _) & H1 & H2 & H3 & Ht).
  exists b, e, new. rewrite Hce, Hup, Hnew. split_and!; try done.
  - destruct oe as [e0|]; [left|right; done].
    destruct H2 as (-> & _). done.
  - rewrite Ht. destruct H3 as (? & _ & _ & ->).
    unfold audit_emitted. rewrite !omap_app. simpl.
    rewrite !app_assoc. apply last_snoc.
Qed.
End DeployFacts.

(** ** The handler against the in-memory storage *)

Section Lists.
Context {A : Type} (P : A → Prop) `{!∀ x, Decision (P x)}.

Lemma head_filter_elem l x : head (filter P l) = Some x → x ∈ l ∧ P x.
Proof.
  intros Hh. apply head_Some_elem_of, list_elem_of_filter in Hh. tauto.
Qed.

Lemma head_filter_none l : head (filter P l) = None → Forall (λ x, ¬ P x) l.
Proof.
  induction l as [|y l IH]; [constructor|].
  rewrite filter_cons. destruct (decide (P y)); [discriminate|].
  intros Hh. constructor; auto.
Qed.

Lemma head_filter_is_Some l x : x ∈ l → P x → is_Some (head (filter P l)).
Proof.
  intros Hx HP. apply head_is_Some. intros Hnil.
  by eapply filter_nil_not_elem_of.
Qed.

Lemma head_filter_snoc l x :
  head (filter P (l ++ [x]))
    = match head (filter P l) with
      | Some y => Some y
      | None => if decide (P x) then Some x else None
      end.
Proof.
  rewrite filter_app. destruct (filter P l) as [|y l'] eqn:E; simpl.
  - rewrite filter_cons. destruct (decide (P x)); reflexivity.
  - reflexivity.
Qed.

Lemma head_filter_snoc_opt l (o : option A) (x : A) :
  head (filter P (l ++ (if o is Some _ then [] else [x])))
    = match head (filter P l) with
      | Some y => Some y
      | None =>
          if o is Some _ then None
          else if decide (P x) then Some x else None
      end.
Proof.
  destruct o; [|apply head_filter_snoc].
  rewrite app_nil_r. by destruct (head _).
Qed.

Lemma head_filter_fmap (f : A → A) l :
  (∀ x, P (f x) ↔ P x) →
  head (filter P (f <$> l)) = f <$> head (filter P l).
Proof.
  intros Hf. induction l as [|y l IH]; [reflexivity|].
  rewrite fmap_cons, !filter_cons.
  destruct (decide (P (f y))) as [Hy|Hy], (decide (P y)) as [Hy'|Hy'].
  - reflexivity.
  - pose proof (Hf y). tauto.
  - pose proof (Hf y). tauto.
  - exact IH.
Qed.
End Lists.

Section MemoryFacts.
Import Memory.
Context (matcher_ok : string → bool) (plan : FaultPlan).
Implicit Types (req : IRequest) (s : Store).

Lemma unless_Fulfilled {X} o (x y : X) :
  unless o x = Fulfilled y → o = None ∧ x = y.
Proof. destruct o; simpl; [discriminate|]. by intros [= ->]. Qed.

Lemma unless_on_Fulfilled {X} o s k (y : X) s' :
  unless_on o s k = (Fulfilled y, s') → o = None ∧ k = (Fulfilled y, s').
Proof. destruct o; simpl; [discriminate|]. by intros ->. Qed.

(** Patching the bundle reference keeps the identity of a record. *)
Lemma patch_at_id i b e :
  Entrypoint.id (patch_at i (Entrypoint.bundleId_only b) e) = Entrypoint.id e.
Proof. unfold patch_at. by destruct (decide _). Qed.

Lemma patch_at_appId i b e :
  Entrypoint.appId (patch_at i (Entrypoint.bundleId_only b) e)
    = Entrypoint.appId e.
Proof. unfold patch_at. by destruct (decide _). Qed.

Lemma patch_at_urlMatcher i b e :
  Entrypoint.urlMatcher (patch_at i (Entrypoint.bundleId_only b) e)
    = Entrypoint.urlMatcher e.
Proof. unfold patch_at. by destruct (decide _). Qed.

Lemma patch_at_configuration i b e :
  Entrypoint.configuration (patch_at i (Entrypoint.bundleId_only b) e)
    = Entrypoint.configuration e.
Proof. unfold patch_at. by destruct (decide _). Qed.

Lemma patch_at_bundleId b e :
  Entrypoint.bundleId
      (patch_at (Entrypoint.id e) (Entrypoint.bundleId_only b) e)
    = Some b.
Proof. unfold patch_at. by rewrite decide_True. Qed.

Lemma patch_at_idemp i b e :
  patch_at i (Entrypoint.bundleId_only b)
           (patch_at i (Entrypoint.bundleId_only b) e)
    = patch_at i (Entrypoint.bundleId_only b) e.
Proof.
  unfold patch_at. destruct (decide (Entrypoint.id e = i)) as [Hi|Hi].
  - simpl. rewrite decide_True by done. reflexivity.
  - rewrite decide_False by done. reflexivity.
Qed.
(** What a deploy whose calls all went through did to the store. *)
Lemma memory_deployed req s b oa oe app e new s' t :
  @deployed _ _ (storage matcher_ok plan) req s b oa oe app e new s' t →
  (on_findLatestByNameTagCombination plan = None ∧
   on_findOneByIdOrName plan = None ∧
   on_findOneByIdOrUrlMatcher plan = None ∧
   on_entrypoints_update plan = None ∧
   on_logOperation plan updateEntrypoint = None) ∧
  (findLatestByNameTagCombination (bundleNameTagCombination req) s = Some b ∧
   findOneByIdOrName (appName req) s = oa ∧
   findOneByIdOrUrlMatcher (entrypointUrlMatcher req) s = oe) ∧
  bundles s' = bundles s ∧
  apps s' = apps s ++ (if oa is Some _ then [] else [app]) ∧
  entrypoints s'
    = patch_at (Entrypoint.id e) (Entrypoint.bundleId_only (Bundle.id b))
        <$> (entrypoints s ++ (if oe is Some _ then [] else [e])) ∧
  match oa with
  | Some a => app = a
  | None =>
      app = {| App.id := generateId (App.id <$> apps s);
               App.name := appName req;
               App.defaultConfiguration := ∅ |} ∧
      matcher_ok (entrypointUrlMatcher req) = true
  end ∧
  match oe with
  | Some e0 => e = e0
  | None =>
      e = {| Entrypoint.id := generateId (Entrypoint.id <$> entrypoints s);
             Entrypoint.appId := App.id app;
             Entrypoint.urlMatcher := entrypointUrlMatcher req;
             Entrypoint.configuration := None;
             Entrypoint.bundleId := None |}
  end ∧
  App.id app = Entrypoint.appId e.
Proof.
  intros (s1 & s2 & t1 & t2 & t3 & (Hb & Ha & He & Hl) & H1 & H2 & H3 & _).
  simpl in Hb, Ha, He.
  apply unless_Fulfilled in Hb as [Hpb Hb].
  apply unless_Fulfilled in Ha as [Hpa Ha].
  apply unless_Fulfilled in He as [Hpe He].
  destruct H3 as (s3 & Hu & Hlu & _). simpl in Hu, Hlu.
  apply unless_on_Fulfilled in Hu as [Hpu Hu].
  apply unless_on_Fulfilled in Hlu as [Hpl Hlu].
  unfold update_entrypoint in Hu.
  destruct (findOneById (Entrypoint.id e) s2) as [e1|]; simpl in Hu;
    [|discriminate].
  injection Hu as <- <-. injection Hlu as <-.
  assert (bundles s1 = bundles s ∧ entrypoints s1 = entrypoints s ∧
          apps s1 = apps s ++ (if oa is Some _ then [] else [app]) ∧
          match oa with
          | Some a => app = a
          | None =>
              app = {| App.id := generateId (App.id <$> apps s);
                       App.name := appName req;
                       App.defaultConfiguration := ∅ |} ∧
              matcher_ok (entrypointUrlMatcher req) = true
          end) as (Hb1 & He1 & Ha1 & Happ).
  { unfold app_step in H1. destruct oa as [a|].
    - destruct H1 as (-> & -> & _). by rewrite app_nil_r.
    - destruct H1 as (s4 & Hv & Hc & Hlc & _). simpl in Hv, Hc, Hlc.
      apply unless_on_Fulfilled in Hc as [_ Hc].
      apply unless_on_Fulfilled in Hlc as [_ Hlc].
      injection Hc as <- <-. injection Hlc as <-.
      destruct (matcher_ok (entrypointUrlMatcher req)); [|discriminate].
      done. }
  assert (bundles s2 = bundles s1 ∧ apps s2 = apps s1 ∧
          entrypoints s2 = entrypoints s1 ++ (if oe is Some _ then [] else [e]) ∧
          match oe with
          | Some e0 => e = e0
          | None =>
              e = {| Entrypoint.id :=
                       generateId (Entrypoint.id <$> entrypoints s1);
                     Entrypoint.appId := App.id app;
                     Entrypoint.urlMatcher := entrypointUrlMatcher req;
                     Entrypoint.configuration := None;
                     Entrypoint.bundleId := None |}
          end) as (Hb2 & Ha2 & He2 & Hep).
  { unfold entrypoint_step in H2. destruct oe as [e0|].
    - destruct H2 as (-> & -> & _). by rewrite app_nil_r.
    - destruct H2 as (s4 & Hc & Hlc & _). simpl in Hc, Hlc.
      apply unless_on_Fulfilled in Hc as [_ Hc].
      apply unless_on_Fulfilled in Hlc as [_ Hlc].
      destruct (matcher_ok (entrypointUrlMatcher req)); [|discriminate].
      injection Hc as <- <-. injection Hlc as <-. done. }
  simpl. rewrite Hb2, Hb1, Ha2, Ha1, He2, He1. rewrite He1 in Hep.
  split_and!; try done.
  destruct oe as [e0|]; [|by rewrite Hep].
  subst e0. unfold doesnt_link in Hl.
  destruct oa as [a|]; [|discriminate]. subst a.
  apply negb_false_iff, String.eqb_eq in Hl. done.
Qed.
(** The store after a deploy whose calls all went through: what the
    lookups of the same request find there. *)
Lemma memory_deployed_lookups req s b oa oe app e new s' t :
  @deployed _ _ (storage matcher_ok plan) req s b oa oe app e new s' t →
  findLatestByNameTagCombination (bundleNameTagCombination req) s' = Some b ∧
  findOneByIdOrName (appName req) s' = Some app ∧
  findOneByIdOrUrlMatcher (entrypointUrlMatcher req) s'
    = Some (patch_at (Entrypoint.id e)
                     (Entrypoint.bundleId_only (Bundle.id b)) e) ∧
  is_Some (findOneById (Entrypoint.id e) s').
Proof.
  intros Hd. apply memory_deployed in Hd
    as (_ & (Hfb & Hfa & Hfe) & Hbs & Has & Hes & Happ & Hep & Hlink).
  unfold findLatestByNameTagCombination, findOneByIdOrName,
    findOneByIdOrUrlMatcher, findOneById in *.
  rewrite Hbs, Has, Hes. split_and!.
  - exact Hfb.
  - rewrite head_filter_snoc_opt. destruct oa as [a|].
    + rewrite Hfa. by subst a.
    + rewrite Hfa. destruct Happ as [-> _]. simpl.
      rewrite decide_True by (right; reflexivity). reflexivity.
  - rewrite head_filter_fmap
      by (intros x; by rewrite patch_at_id, patch_at_urlMatcher).
    rewrite head_filter_snoc_opt. destruct oe as [e0|].
    + rewrite Hfe. by subst e0.
    + rewrite Hfe. subst e. simpl.
      rewrite decide_True by (right; reflexivity). reflexivity.
  - rewrite head_filter_fmap by (intros x; by rewrite patch_at_id).
    apply fmap_is_Some. apply head_filter_is_Some with e; [|done].
    destruct oe as [e0|].
    + subst e0. rewrite app_nil_r. by apply head_filter_elem in Hfe as [? _].
    + set_solver.
Qed.
(** A second deploy of the same request, after one whose calls all went
    through. *)
Lemma memory_deployed_again req s b oa oe app e new s' t :
  @deployed _ _ (storage matcher_ok plan) req s b oa oe app e new s' t →
  ∃ e' new' logs,
    e' = patch_at (Entrypoint.id e)
                  (Entrypoint.bundleId_only (Bundle.id b)) e ∧
    findLatestByNameTagCombination (bundleNameTagCombination req) s' = Some b ∧
    findOneByIdOrUrlMatcher (entrypointUrlMatcher req) s' = Some e' ∧
    deploy_in_memory matcher_ok plan req s'
      = (lookup_events req b (Some app) (Some e') ++
         [Event (EntrypointsUpdate (Entrypoint.id e')
                   (Entrypoint.bundleId_only (Bundle.id b)))
                (Fulfilled new');
          Event (LogOperation updateEntrypoint (UpdatedEntrypoint e' new'))
                (Fulfilled ());
          Event (Send 204 None) (Fulfilled ())],
         Returned (),
         with_operationLogs logs s').
Proof.
  intros Hd.
  pose proof (memory_deployed_lookups _ _ _ _ _ _ _ _ _ _ Hd)
    as (Hfb & Hfa & Hfe & [e1 Hfi]).
  apply memory_deployed in Hd
    as ((Hpb & Hpa & Hpe & Hpu & Hpl) & _ & Hbs & Has & Hes & _ & _ & Hlink).
  set (e' := patch_at (Entrypoint.id e)
                      (Entrypoint.bundleId_only (Bundle.id b)) e) in *.
  assert (Entrypoint.id e' = Entrypoint.id e) as Hid by apply patch_at_id.
  assert (patch_at (Entrypoint.id e) (Entrypoint.bundleId_only (Bundle.id b))
            <$> entrypoints s' = entrypoints s') as Hfix.
  { rewrite Hes, <-list_fmap_compose. apply list_fmap_ext.
    intros _ x _. apply patch_at_idemp. }
  exists e', (apply_patch (Entrypoint.bundleId_only (Bundle.id b)) e1),
    (operationLogs s' ++
       [(updateEntrypoint, UpdatedEntrypoint e' (apply_patch (Entrypoint.bundleId_only (Bundle.id b)) e1))]).
  split_and!; try done.
  unfold deploy_in_memory. apply deployed_succeeds with b (Some app) (Some e')
    app e' (apply_patch (Entrypoint.bundleId_only (Bundle.id b)) e1).
  exists s', s', [], [].
  eexists. split_and!; try done.
  - unfold looked_up. simpl. rewrite Hpb, Hpa, Hpe, Hfb, Hfa, Hfe. simpl.
    split_and!; try done. apply negb_false_iff, String.eqb_eq.
    unfold e'. by rewrite patch_at_appId.
  - unfold link_step. eexists. simpl. rewrite Hpu, Hpl. simpl.
    unfold update_entrypoint. rewrite Hid, Hfi. simpl.
    rewrite Hfix. split_and!; reflexivity.
Qed.

(** C1: if a deploy succeeds, deploying the same request again on the
    store it left succeeds too; the second call finds the app and the
    entrypoint, asks for no creation, and leaves the bundles, the apps
    and the entrypoints of the store as the first call left them; after
    either call the entrypoint found for the matcher points to the
    bundle found for the name:tag combination. *)
Theorem deploy_idempotent req s :
  succeeded (deploy_in_memory matcher_ok plan req s) →
  succeeded (deploy_again matcher_ok plan req s) ∧
  kinds (trace (deploy_again matcher_ok plan req s))
    = [KFindBundle; KFindApp; KFindEntrypoint;
       KEntrypointsUpdate; KLogOperation updateEntrypoint; KSend] ∧
  created_apps (trace (deploy_again matcher_ok plan req s)) = [] ∧
  created_entrypoints (trace (deploy_again matcher_ok plan req s)) = [] ∧
  bundles (final (deploy_again matcher_ok plan req s))
    = bundles (final (deploy_in_memory matcher_ok plan req s)) ∧
  apps (final (deploy_again matcher_ok plan req s))
    = apps (final (deploy_in_memory matcher_ok plan req s)) ∧
  entrypoints (final (deploy_again matcher_ok plan req s))
    = entrypoints (final (deploy_in_memory matcher_ok plan req s)) ∧
  ∃ b e,
    Entrypoint.bundleId e = Some (Bundle.id b) ∧
    findLatestByNameTagCombination (bundleNameTagCombination req)
        (final (deploy_in_memory matcher_ok plan req s)) = Some b ∧
    findOneByIdOrUrlMatcher (entrypointUrlMatcher req)
        (final (deploy_in_memory matcher_ok plan req s)) = Some e ∧
    findLatestByNameTagCombination (bundleNameTagCombination req)
        (final (deploy_again matcher_ok plan req s)) = Some b ∧
    findOneByIdOrUrlMatcher (entrypointUrlMatcher req)
        (final (deploy_again matcher_ok plan req s)) = Some e.
Proof.
  intros Hs. apply succeeded_deployed in Hs
    as (b & oa & oe & app & e & new & Hd).
  apply memory_deployed_again in Hd
    as (e' & new' & logs & He' & Hfb & Hfe & Heq).
  unfold deploy_again. fold (deploy_in_memory matcher_ok plan req s) in *.
  rewrite Heq. unfold succeeded, final, trace. simpl.
  split_and!; try done.
  exists b, e'. split_and!; try done.
  subst e'. apply patch_at_bundleId.
Qed.
Lemma generateId_fresh (taken : list string) : generateId taken ∉ taken.
Proof. apply infinite_is_fresh. Qed.

Lemma same_but_bundle_patch_at i b e :
  same_but_bundle e (patch_at i (Entrypoint.bundleId_only b) e).
Proof.
  unfold same_but_bundle.
  by rewrite patch_at_id, patch_at_appId, patch_at_urlMatcher,
    patch_at_configuration.
Qed.

(** How each call of the in-memory storage treats the records. *)
Lemma memory_apps_create p s a s' :
  apps_create (Collaborators := storage matcher_ok plan) p s
    = (Fulfilled a, s') →
  a ∈ apps s'.
Proof.
  simpl. intros [_ [= <- <-]]%unless_on_Fulfilled. simpl. set_solver.
Qed.

Lemma memory_entrypoints_create p s e s' :
  entrypoints_create (Collaborators := storage matcher_ok plan) p s
    = (Fulfilled e, s') →
  stored_entrypoint e s'.
Proof.
  simpl. intros [_ Hc]%unless_on_Fulfilled.
  destruct (matcher_ok _); [|discriminate]. injection Hc as <- <-.
  eexists. split; [|done]. simpl. set_solver.
Qed.

Lemma memory_entrypoints_create_apps p s r s' :
  entrypoints_create (Collaborators := storage matcher_ok plan) p s = (r, s') →
  apps s' = apps s.
Proof.
  simpl. unfold unless_on. destruct (on_entrypoints_create plan).
  - by intros [= _ <-].
  - destruct (matcher_ok _); by intros [= _ <-].
Qed.

Lemma memory_entrypoints_update i p s r s' :
  entrypoints_update (Collaborators := storage matcher_ok plan) i p s
    = (r, s') →
  apps s' = apps s ∧
  (entrypoints s' = entrypoints s ∨
   entrypoints s' = patch_at i p <$> entrypoints s).
Proof.
  simpl. unfold unless_on, update_entrypoint.
  destruct (on_entrypoints_update plan); [by intros [= _ <-]; auto|].
  destruct (findOneById i s); simpl; intros [= _ <-]; auto.
Qed.

Lemma memory_logOperation o p s r s' :
  logOperation (Collaborators := storage matcher_ok plan) o p s = (r, s') →
  apps s' = apps s ∧ entrypoints s' = entrypoints s.
Proof.
  simpl. unfold unless_on.
  destruct (on_logOperation plan o); by intros [= _ <-].
Qed.

Lemma memory_entrypoints_create_keeps_app p s r s' a :
  entrypoints_create (Collaborators := storage matcher_ok plan) p s = (r, s') →
  a ∈ apps s → a ∈ apps s'.
Proof. intros Hc. by rewrite (memory_entrypoints_create_apps _ _ _ _ Hc). Qed.

Lemma memory_entrypoints_update_keeps_app i b s r s' a :
  entrypoints_update (Collaborators := storage matcher_ok plan)
      i (Entrypoint.bundleId_only b) s = (r, s') →
  a ∈ apps s → a ∈ apps s'.
Proof. intros [-> _]%memory_entrypoints_update. done. Qed.

Lemma memory_logOperation_keeps_app o p s r s' a :
  logOperation (Collaborators := storage matcher_ok plan) o p s = (r, s') →
  a ∈ apps s → a ∈ apps s'.
Proof. intros [-> _]%memory_logOperation. done. Qed.

Lemma memory_entrypoints_update_keeps_entrypoint i b s r s' e :
  entrypoints_update (Collaborators := storage matcher_ok plan)
      i (Entrypoint.bundleId_only b) s = (r, s') →
  stored_entrypoint e s → stored_entrypoint e s'.
Proof.
  intros [_ Hu]%memory_entrypoints_update.
  unfold stored_entrypoint. destruct Hu as [-> | ->]; [done|].
  intros (e' & He' & H1 & H2 & H3 & H4).
  exists (patch_at i (Entrypoint.bundleId_only b) e'). split.
  - apply list_elem_of_fmap. eauto.
  - unfold same_but_bundle.
    by rewrite patch_at_id, patch_at_appId, patch_at_urlMatcher,
      patch_at_configuration.
Qed.

Lemma memory_logOperation_keeps_entrypoint o p s r s' e :
  logOperation (Collaborators := storage matcher_ok plan) o p s = (r, s') →
  stored_entrypoint e s → stored_entrypoint e s'.
Proof.
  intros [_ Hl]%memory_logOperation. unfold stored_entrypoint. by rewrite Hl.
Qed.

(** Records created during a deploy are in the store it leaves,
    however the deploy ends. *)
Lemma memory_keeps_created req s :
  (∀ a, a ∈ created_apps (trace (deploy_in_memory matcher_ok plan req s)) →
        a ∈ apps (final (deploy_in_memory matcher_ok plan req s))) ∧
  (∀ e, e ∈ created_entrypoints
              (trace (deploy_in_memory matcher_ok plan req s)) →
        stored_entrypoint e (final (deploy_in_memory matcher_ok plan req s))).
Proof.
  unfold deploy_in_memory.
  apply (created_records_persist (λ a s, a ∈ apps s) stored_entrypoint).
  - apply memory_apps_create.
  - apply memory_entrypoints_create.
  - apply memory_entrypoints_create_keeps_app.
  - apply memory_entrypoints_update_keeps_app.
  - apply memory_logOperation_keeps_app.
  - apply memory_entrypoints_update_keeps_entrypoint.
  - apply memory_logOperation_keeps_entrypoint.
Qed.

(** C6: a deploy that returns without having sent [409] has sent [204]
    with no body, once.  It asked for one update, of the resolved
    entrypoint (the one found, or else the one just created), with a
    patch that carries the bundle's id and nothing else.  In the store
    it leaves, the lookup of the matcher finds that entrypoint with its
    [bundleId] set to the bundle's id and every other field as before;
    entrypoints with another id are as they were; the stored
    entrypoints are those from before plus those created, each
    unchanged but for [bundleId]; apps are only added, bundles
    untouched.  And in every execution, every update the handler asks
    for carries a bundle id and no other field. *)
Theorem deploy_updates_bundleId_only req s :
  result (deploy_in_memory matcher_ok plan req s) = Returned () →
  409%Z ∉ (responses (trace (deploy_in_memory matcher_ok plan req s))).*1 →
  responses (trace (deploy_in_memory matcher_ok plan req s))
    = [(204%Z, None)] ∧
  (∀ req' s',
     Forall (λ request, ∃ b, request.2 = Entrypoint.bundleId_only b)
            (omap update_requested
               (trace (deploy_in_memory matcher_ok plan req' s')))) ∧
  ∃ b e e',
    findLatestByNameTagCombination (bundleNameTagCombination req) s = Some b ∧
    (findOneByIdOrUrlMatcher (entrypointUrlMatcher req) s = Some e ∨
     findOneByIdOrUrlMatcher (entrypointUrlMatcher req) s = None ∧
     created_entrypoints (trace (deploy_in_memory matcher_ok plan req s))
       = [e]) ∧
    omap update_requested (trace (deploy_in_memory matcher_ok plan req s))
      = [(Entrypoint.id e, Entrypoint.bundleId_only (Bundle.id b))] ∧
    findOneByIdOrUrlMatcher (entrypointUrlMatcher req)
        (final (deploy_in_memory matcher_ok plan req s)) = Some e' ∧
    e' ∈ entrypoints (final (deploy_in_memory matcher_ok plan req s)) ∧
    Entrypoint.bundleId e' = Some (Bundle.id b) ∧
    Entrypoint.id e' = Entrypoint.id e ∧
    Entrypoint.appId e' = Entrypoint.appId e ∧
    Entrypoint.urlMatcher e' = Entrypoint.urlMatcher e ∧
    Entrypoint.configuration e' = Entrypoint.configuration e ∧
    (∀ x, x ∈ entrypoints s → Entrypoint.id x ≠ Entrypoint.id e →
          x ∈ entrypoints (final (deploy_in_memory matcher_ok plan req s))) ∧
    Forall2 same_but_bundle
      (entrypoints s ++
       created_entrypoints (trace (deploy_in_memory matcher_ok plan req s)))
      (entrypoints (final (deploy_in_memory matcher_ok plan req s))) ∧
    apps (final (deploy_in_memory matcher_ok plan req s))
      = apps s ++
        created_apps (trace (deploy_in_memory matcher_ok plan req s)) ∧
    bundles (final (deploy_in_memory matcher_ok plan req s)) = bundles s.
Proof.
  intros Hr Hno.
  pose proof (returned_without_conflict _ _ Hr Hno) as Hs.
  split; [apply Hs|].
  split; [intros req' s'; apply updates_carry_bundleId_only|].
  apply succeeded_deployed in Hs as (b & oa & oe & app & e & new & Hd).
  fold (deploy_in_memory matcher_ok plan req s) in Hd.
  pose proof (deployed_observed _ _ _ _ _ _ _ _ _ _ Hd)
    as (_ & _ & Hca & _ & Hce & Hup & _).
  pose proof (memory_deployed_lookups _ _ _ _ _ _ _ _ _ _ Hd)
    as (_ & _ & Hfe' & _).
  apply memory_deployed in Hd
    as (_ & (Hfb & _ & Hfe) & Hbs & Has & Hes & _ & Hep & _).
  exists b, e, (patch_at (Entrypoint.id e)
                         (Entrypoint.bundleId_only (Bundle.id b)) e).
  pose proof (head_filter_elem _ _ _ Hfe') as [Hin _].
  fold (entrypoints (final (deploy_in_memory matcher_ok plan req s))) in Hin.
  destruct (same_but_bundle_patch_at (Entrypoint.id e) (Bundle.id b) e)
    as (Hid & Happ & Hurl & Hcfg).
  split_and!; try done.
  - destruct oe as [e0|]; [left; by subst e0|right; by rewrite Hce].
  - apply patch_at_bundleId.
  - intros x Hx Hne. rewrite Hes. apply list_elem_of_fmap. exists x. split.
    + unfold patch_at. by rewrite decide_False.
    + apply elem_of_app. by left.
  - rewrite Hce, Hes.
    apply Forall2_fmap_r, Forall_Forall2_diag, Forall_forall.
    intros x _. apply same_but_bundle_patch_at.
  - by rewrite Hca, Has.
Qed.
End MemoryFacts.

Section ReliableStorage.
Import Memory.
Context (matcher_ok : string → bool).
Implicit Types (req : IRequest) (s : Store).

Lemma findOneById_fresh s e :
  Entrypoint.id e = generateId (Entrypoint.id <$> entrypoints s) →
  findOneById (Entrypoint.id e) (with_entrypoints (entrypoints s ++ [e]) s)
    = Some e.
Proof.
  intros Hid. unfold findOneById. simpl. rewrite head_filter_snoc.
  rewrite decide_True by done.
  destruct (head (filter _ (entrypoints s))) as [x|] eqn:Hx; [|done].
  apply head_filter_elem in Hx as [Hx Hxid]. exfalso.
  apply (generateId_fresh (Entrypoint.id <$> entrypoints s)).
  rewrite <-Hid, <-Hxid. apply list_elem_of_fmap. eauto.
Qed.

(** C5: with the bundle found, no app and no entrypoint found, and a
    well-formed matcher, on a storage whose calls go through: after the
    lookups the handler checks the matcher, creates an app with the
    given name and an empty default configuration, logs it, then
    creates an entrypoint for that app's id with the given matcher, no
    configuration and no bundle, logs it, and goes on to the update;
    both records are in the store it leaves. *)
Theorem missing_app_and_entrypoint_created req s b :
  findLatestByNameTagCombination (bundleNameTagCombination req) s = Some b →
  findOneByIdOrName (appName req) s = None →
  findOneByIdOrUrlMatcher (entrypointUrlMatcher req) s = None →
  matcher_ok (entrypointUrlMatcher req) = true →
  ∃ app e,
    result (deploy_in_memory matcher_ok reliable req s) = Returned () ∧
    kinds (trace (deploy_in_memory matcher_ok reliable req s))
      = [KFindBundle; KFindApp; KFindEntrypoint;
         KValidate; KAppsCreate; KLogOperation createApp;
         KEntrypointsCreate; KLogOperation createEntrypoint;
         KEntrypointsUpdate; KLogOperation updateEntrypoint; KSend] ∧
    omap app_requested (trace (deploy_in_memory matcher_ok reliable req s))
      = [{| App.p_name := appName req; App.p_defaultConfiguration := ∅ |}] ∧
    created_apps (trace (deploy_in_memory matcher_ok reliable req s))
      = [app] ∧
    App.name app = appName req ∧
    App.defaultConfiguration app = ∅ ∧
    omap entrypoint_requested
         (trace (deploy_in_memory matcher_ok reliable req s))
      = [{| Entrypoint.p_appId := App.id app;
            Entrypoint.p_urlMatcher := entrypointUrlMatcher req;
            Entrypoint.p_configuration := None |}] ∧
    created_entrypoints (trace (deploy_in_memory matcher_ok reliable req s))
      = [e] ∧
    Entrypoint.appId e = App.id app ∧
    Entrypoint.urlMatcher e = entrypointUrlMatcher req ∧
    Entrypoint.configuration e = None ∧
    Entrypoint.bundleId e = None ∧
    app ∈ apps (final (deploy_in_memory matcher_ok reliable req s)) ∧
    stored_entrypoint e (final (deploy_in_memory matcher_ok reliable req s)).
Proof.
  intros Hb Ha He Hok.
  set (app := {| App.id := generateId (App.id <$> apps s);
                 App.name := appName req;
                 App.defaultConfiguration := ∅ |}).
  set (s1 := append_log createApp (CreatedApp app)
               (with_apps (apps s ++ [app]) s)).
  set (e := {| Entrypoint.id := generateId (Entrypoint.id <$> entrypoints s);
               Entrypoint.appId := App.id app;
               Entrypoint.urlMatcher := entrypointUrlMatcher req;
               Entrypoint.configuration := None;
               Entrypoint.bundleId := None |}).
  set (s2 := append_log createEntrypoint (CreatedEntrypoint e)
               (with_entrypoints (entrypoints s1 ++ [e]) s1)).
  assert (∃ new s' t,
    @deployed _ _ (storage matcher_ok reliable) req s b None None
              app e new s' t) as (new & s' & t & Hd).
  { do 3 eexists. exists s1, s2. do 3 eexists. split_and!.
    - unfold looked_up. simpl. by rewrite Hb, Ha, He.
    - unfold app_step. exists (with_apps (apps s ++ [app]) s). simpl.
      rewrite Hok. done.
    - unfold entrypoint_step.
      exists (with_entrypoints (entrypoints s1 ++ [e]) s1). simpl.
      rewrite Hok. done.
    - unfold link_step. eexists. simpl. unfold update_entrypoint.
      change (findOneById _ s2) with
        (findOneById (Entrypoint.id e)
                     (with_entrypoints (entrypoints s ++ [e]) s)).
      rewrite findOneById_fresh by done. simpl. done.
    - reflexivity. }
  pose proof (deployed_succeeds _ _ _ _ _ _ _ _ _ _ Hd) as Heq.
  pose proof (deployed_observed _ _ _ _ _ _ _ _ _ _ Hd)
    as (Hk & Hra & Hca & Hre & Hce & _).
  destruct (memory_keeps_created matcher_ok reliable req s) as [Hsa Hse].
  unfold deploy_in_memory in *. rewrite Heq in *.
  exists app, e. unfold result, trace, final in *. simpl in *.
  split_and!; try done.
  - apply Hsa. rewrite Hca. set_solver.
  - apply Hse. rewrite Hce. set_solver.
Qed.
End ReliableStorage.

(** ** The properties on the sample stores *)

(** The first end-to-end scenario of the spec: the bundle exists, the
    app and the entrypoint do not.  Three log entries, in order, and
    the new entrypoint ends up pointing to the bundle. *)
Example scenario_first_deploy :
  (audit_emitted (trace (deploy_in_memory Memory.has_slash Memory.reliable
                           Sample.acme_v1 Sample.only_bundle))).*1
    = [createApp; createEntrypoint; updateEntrypoint] ∧
  Memory.apps (final (deploy_in_memory Memory.has_slash Memory.reliable
                        Sample.acme_v1 Sample.only_bundle))
    = [App.mk "0" "acme" ∅] ∧
  Memory.entrypoints (final (deploy_in_memory Memory.has_slash Memory.reliable
                               Sample.acme_v1 Sample.only_bundle))
    = [Entrypoint.mk "0" "0" "acme.example.com/" None (Some "b1")].
Proof. split_and!; vm_compute; reflexivity. Qed.

(** The second one: the entrypoint belongs to another app.  A [409],
    and the store is as it was. *)
Example scenario_foreign_entrypoint :
  responses (trace (deploy_in_memory Memory.has_slash Memory.reliable
                      Sample.acme_v2 Sample.foreign_entrypoint))
    = [(409%Z,
        Some ("Entrypoint with urlMatcher = acme.example.com/" +:+ nbsp +:+
              "doesn't link to app with name = acme"))] ∧
  final (deploy_in_memory Memory.has_slash Memory.reliable
           Sample.acme_v2 Sample.foreign_entrypoint)
    = Sample.foreign_entrypoint.
Proof. split; vm_compute; reflexivity. Qed.

(** A first deploy on a store with only the bundle, then the same again. *)
Lemma deploy_idempotent_witness :
  succeeded (deploy_in_memory Memory.has_slash Memory.reliable
               Sample.acme_v1 Sample.only_bundle) ∧
  succeeded (deploy_again Memory.has_slash Memory.reliable
               Sample.acme_v1 Sample.only_bundle) ∧
  created_apps (trace (deploy_again Memory.has_slash Memory.reliable
                         Sample.acme_v1 Sample.only_bundle)) = [].
Proof.
  assert (succeeded (deploy_in_memory Memory.has_slash Memory.reliable
                       Sample.acme_v1 Sample.only_bundle)) as Hs
    by (split; vm_compute; reflexivity).
  split; [exact Hs|].
  destruct (deploy_idempotent Memory.has_slash Memory.reliable
              Sample.acme_v1 Sample.only_bundle Hs) as (H1 & _ & H2 & _).
  exact (conj H1 H2).
Defined.

(** A request for a bundle the store does not have. *)
Lemma bundle_absent_not_found_witness :
  result (deploy_in_memory Memory.has_slash Memory.reliable
            Sample.acme_v2 Sample.only_bundle)
    = Raised (BundleNotFoundError "site:v2" "name:tag combination") ∧
  final (deploy_in_memory Memory.has_slash Memory.reliable
           Sample.acme_v2 Sample.only_bundle) = Sample.only_bundle.
Proof.
  destruct (bundle_absent_not_found
              (C := Memory.storage Memory.has_slash Memory.reliable)
              Sample.acme_v2 Sample.only_bundle None None)
    as (H1 & _ & _ & _ & H2); [reflexivity|].
  exact (conj H1 H2).
Defined.

(** The matcher's entrypoint belongs to app [a2], the request names [a1]. *)
Lemma entrypoint_app_mismatch_conflict_witness :
  result (deploy_in_memory Memory.has_slash Memory.reliable
            Sample.acme_v2 Sample.foreign_entrypoint) = Returned () ∧
  responses (trace (deploy_in_memory Memory.has_slash Memory.reliable
                      Sample.acme_v2 Sample.foreign_entrypoint))
    = [(409%Z, Some (conflict_message Sample.acme_v2))] ∧
  final (deploy_in_memory Memory.has_slash Memory.reliable
           Sample.acme_v2 Sample.foreign_entrypoint)
    = Sample.foreign_entrypoint.
Proof.
  destruct (entrypoint_app_mismatch_conflict
              (C := Memory.storage Memory.has_slash Memory.reliable)
              Sample.acme_v2 Sample.foreign_entrypoint
              (Bundle.mk "b2" "site" "v2") (Some (App.mk "a1" "acme" ∅))
              (Entrypoint.mk "e1" "a2" "acme.example.com/" None None))
    as (H1 & H2 & _ & _ & _ & H3); [reflexivity| |].
  - right. eexists. split; [reflexivity|]. simpl. discriminate.
  - exact (conj H1 (conj H2 H3)).
Defined.

(** C4 as stated fails: the bundle is there, no app is found, the
    matcher is malformed, yet an entrypoint is found (by id), so the
    handler answers [409] before it ever checks the matcher. *)
Lemma invalid_matcher_conflict_first :
  Memory.findLatestByNameTagCombination
      (bundleNameTagCombination Sample.other_by_id) Sample.foreign_entrypoint
    = Some (Bundle.mk "b2" "site" "v2") ∧
  Memory.findOneByIdOrName (appName Sample.other_by_id)
      Sample.foreign_entrypoint = None ∧
  validateEntrypointUrlMatcher
      (Collaborators := Memory.storage Memory.has_slash Memory.reliable)
      (entrypointUrlMatcher Sample.other_by_id)
    = Rejected (Memory.UrlMatcherNotValidError "e1") ∧
  result (deploy_in_memory Memory.has_slash Memory.reliable
            Sample.other_by_id Sample.foreign_entrypoint) = Returned () ∧
  responses (trace (deploy_in_memory Memory.has_slash Memory.reliable
                      Sample.other_by_id Sample.foreign_entrypoint))
    = [(409%Z, Some (conflict_message Sample.other_by_id))] ∧
  validations (trace (deploy_in_memory Memory.has_slash Memory.reliable
                        Sample.other_by_id Sample.foreign_entrypoint)) = [] ∧
  ¬ ∃ f, result (deploy_in_memory Memory.has_slash Memory.reliable
                   Sample.other_by_id Sample.foreign_entrypoint)
           = Raised (CollaboratorFault f).
Proof.
  split_and!; try (vm_compute; reflexivity).
  intros [f Hf]. vm_compute in Hf. discriminate.
Qed.

(** A matcher without a path, for an app that does not exist yet. *)
Lemma invalid_matcher_no_orphan_app_witness :
  result (deploy_in_memory Memory.has_slash Memory.reliable
            Sample.acme_malformed Sample.only_bundle)
    = Raised (CollaboratorFault
                (Memory.UrlMatcherNotValidError "acme.example.com")) ∧
  created_apps (trace (deploy_in_memory Memory.has_slash Memory.reliable
                         Sample.acme_malformed Sample.only_bundle)) = [] ∧
  final (deploy_in_memory Memory.has_slash Memory.reliable
           Sample.acme_malformed Sample.only_bundle) = Sample.only_bundle.
Proof.
  destruct (invalid_matcher_no_orphan_app
              (C := Memory.storage Memory.has_slash Memory.reliable)
              Sample.acme_malformed Sample.only_bundle
              (Bundle.mk "b1" "site" "v1")
              (Memory.UrlMatcherNotValidError "acme.example.com"))
    as (H1 & _ & H2 & _ & H3 & _); [reflexivity..|].
  exact (conj H1 (conj H2 H3)).
Defined.

(** Neither the app nor the entrypoint exists yet. *)
Lemma missing_app_and_entrypoint_created_witness :
  ∃ app e,
    created_apps (trace (deploy_in_memory Memory.has_slash Memory.reliable
                           Sample.acme_v1 Sample.only_bundle)) = [app] ∧
    App.name app = "acme" ∧
    created_entrypoints
      (trace (deploy_in_memory Memory.has_slash Memory.reliable
                Sample.acme_v1 Sample.only_bundle)) = [e] ∧
    Entrypoint.appId e = App.id app ∧
    Entrypoint.bundleId e = None.
Proof.
  destruct (missing_app_and_entrypoint_created Memory.has_slash
              Sample.acme_v1 Sample.only_bundle (Bundle.mk "b1" "site" "v1"))
    as (app & e & _ & _ & _ & H1 & H2 & _ & _ & H3 & H4 & _ & _ & H5 & _);
    [reflexivity..|].
  exists app, e. exact (conj H1 (conj H2 (conj H3 (conj H4 H5)))).
Defined.

(** The entrypoint is there, without a bundle; the deploy gives it one. *)
Lemma deploy_updates_bundleId_only_witness :
  responses (trace (deploy_in_memory Memory.has_slash Memory.reliable
                      Sample.acme_v1 deployed_before))
    = [(204%Z, None)] ∧
  ∃ e',
    Memory.findOneByIdOrUrlMatcher "acme.example.com/"
        (final (deploy_in_memory Memory.has_slash Memory.reliable
                  Sample.acme_v1 deployed_before)) = Some e' ∧
    Entrypoint.bundleId e' = Some "b1".
Proof.
  destruct (deploy_updates_bundleId_only Memory.has_slash Memory.reliable
              Sample.acme_v1 deployed_before)
    as (H1 & _ & b & e & e' & Hb & _ & _ & Hf & _ & Hbid & _).
  - reflexivity.
  - vm_compute. intros H. inversion H as [|? ? ? H']. inversion H'.
  - vm_compute in Hb. injection Hb as <-.
    exact (conj H1 (ex_intro _ e' (conj Hf Hbid))).
Defined.

(** The app gets created, then creating the entrypoint fails. *)
Lemma no_retry_no_rollback_witness :
  result (deploy_in_memory Memory.has_slash Sample.entrypoints_create_down
            Sample.acme_v1 Sample.only_bundle)
    = Raised (CollaboratorFault (Memory.GenericStorageError "down")) ∧
  length (trace (deploy_in_memory Memory.has_slash
                   Sample.entrypoints_create_down
                   Sample.acme_v1 Sample.only_bundle)) = 7 ∧
  ∀ a, a ∈ created_apps
             (trace (deploy_in_memory Memory.has_slash
                       Sample.entrypoints_create_down
                       Sample.acme_v1 Sample.only_bundle)) →
       a ∈ Memory.apps
             (final (deploy_in_memory Memory.has_slash
                       Sample.entrypoints_create_down
                       Sample.acme_v1 Sample.only_bundle)).
Proof.
  destruct (no_retry_no_rollback
              (C := Memory.storage Memory.has_slash
                      Sample.entrypoints_create_down)
              (λ a s, a ∈ Memory.apps s) stored_entrypoint
              (memory_apps_create _ _)
              (memory_entrypoints_create _ _)
              (memory_entrypoints_create_keeps_app _ _)
              (memory_entrypoints_update_keeps_app _ _)
              (memory_logOperation_keeps_app _ _)
              (memory_entrypoints_update_keeps_entrypoint _ _)
              (memory_logOperation_keeps_entrypoint _ _)
              Sample.acme_v1 Sample.only_bundle 6
              (Memory.GenericStorageError "down"))
    as (H1 & H2 & _ & H3 & _); [lia|reflexivity|].
  exact (conj H1 (conj H2 H3)).
Defined.

(** C9 as stated fails: the app is found and the entrypoint is not,
    but the bundle is missing, so the handler throws
    [BundleNotFoundError] and never gets to create the entrypoint. *)
Lemma existing_app_bundle_absent :
  Memory.findOneByIdOrName (appName Sample.acme_v2) Sample.with_app
    = Some (App.mk "a1" "acme" ∅) ∧
  Memory.findOneByIdOrUrlMatcher (entrypointUrlMatcher Sample.acme_v2)
      Sample.with_app = None ∧
  result (deploy_in_memory Memory.has_slash Memory.reliable
            Sample.acme_v2 Sample.with_app)
    = Raised (BundleNotFoundError "site:v2" "name:tag combination") ∧
  omap entrypoint_requested
       (trace (deploy_in_memory Memory.has_slash Memory.reliable
                 Sample.acme_v2 Sample.with_app)) = [] ∧
  Memory.entrypoints
    (final (deploy_in_memory Memory.has_slash Memory.reliable
              Sample.acme_v2 Sample.with_app)) = [].
Proof. split_and!; vm_compute; reflexivity. Qed.

(** The bundle and the app are there, the entrypoint is not. *)
Lemma validation_only_without_app_witness :
  validations (trace (deploy_in_memory Memory.has_slash Memory.reliable
                        Sample.acme_v1 Sample.with_app)) = [] ∧
  omap entrypoint_requested
       (trace (deploy_in_memory Memory.has_slash Memory.reliable
                 Sample.acme_v1 Sample.with_app))
    = [{| Entrypoint.p_appId := "a1";
          Entrypoint.p_urlMatcher := "acme.example.com/";
          Entrypoint.p_configuration := None |}].
Proof.
  destruct (validation_only_without_app
              (C := Memory.storage Memory.has_slash Memory.reliable)
              Sample.acme_v1 Sample.with_app
              (Bundle.mk "b1" "site" "v1") (App.mk "a1" "acme" ∅))
    as (H1 & _ & H2 & _); [reflexivity..|].
  exact (conj H1 H2).
Defined.

(** * Further properties of the handler *)

Section HandlerFacts.
Context {Fault W : Type} {C : @Collaborators Fault W}.
Implicit Types (req : IRequest) (w : W).

(** X1: when one of the three lookups fails, the handler throws the
    fault of one of the failed lookups, untouched: the one [Promise.all]
    was rejected with, which is that of the failed lookup that settled
    first, and is among the rejections of the trace.  All three lookups
    have been started and nothing else has: nothing is sent, nothing is
    asked of the storage, and the world is as it was. *)
Theorem lookup_failure_propagates req w :
  (∃ f0,
     bundles_findLatestByNameTagCombination (bundleNameTagCombination req) w
       = Rejected f0 ∨
     apps_findOneByIdOrName (appName req) w = Rejected f0 ∨
     entrypoints_findOneByIdOrUrlMatcher (entrypointUrlMatcher req) w
       = Rejected f0) →
  ∃ f,
    result (deploy req w) = Raised (CollaboratorFault f) ∧
    f ∈ rejections (trace (deploy req w)) ∧
    (bundles_findLatestByNameTagCombination (bundleNameTagCombination req) w
       = Rejected f ∨
     apps_findOneByIdOrName (appName req) w = Rejected f ∨
     entrypoints_findOneByIdOrUrlMatcher (entrypointUrlMatcher req) w
       = Rejected f) ∧
    Promise_all (lookups_settle w)
      (bundles_findLatestByNameTagCombination (bundleNameTagCombination req) w)
      (apps_findOneByIdOrName (appName req) w)
      (entrypoints_findOneByIdOrUrlMatcher (entrypointUrlMatcher req) w)
    = Rejected f ∧
    kinds (trace (deploy req w)) = [KFindBundle; KFindApp; KFindEntrypoint] ∧
    responses (trace (deploy req w)) = [] ∧
    final (deploy req w) = w.
Proof.
  unfold deploy, handler. simpl.
  destruct (bundles_findLatestByNameTagCombination _ _) as [ob|f1],
    (apps_findOneByIdOrName _ _) as [oa|f2],
    (entrypoints_findOneByIdOrUrlMatcher _ _) as [oe|f3],
    (lookups_settle w);
    unfold Promise_all; simpl;
    intros [f0 [H|[H|H]]]; try discriminate H; clear H;
    eexists; unfold rejections; simpl.
  all: split_and!; try reflexivity; eauto;
    apply list_elem_of_In; simpl; eauto.
Qed.

(** X2: in every execution the handler sends at most one response, as
    its last act, and it is [204] with no body or [409] with the
    mismatch message; it returns exactly when it has sent one, and
    when it throws it has sent none. *)
Theorem one_response_at_the_end req w :
  (length (responses (trace (deploy req w))) ≤ 1)%nat ∧
  (result (deploy req w) = Returned () ↔
   length (responses (trace (deploy req w))) = 1%nat) ∧
  (∀ e, result (deploy req w) = Raised e →
        responses (trace (deploy req w)) = []) ∧
  (∀ i, kinds (trace (deploy req w)) !! i = Some KSend →
        length (trace (deploy req w)) = S i) ∧
  Forall (λ response,
            response = (204%Z, None) ∨
            response = (409%Z, Some (conflict_message req)))
         (responses (trace (deploy req w))).
Proof.
  executions.
  all: split_and!;
    [lia
    |split; intros; first [reflexivity | discriminate]
    |intros; first [reflexivity | discriminate]
    |intros i; repeat (destruct i as [|i]; simpl; try discriminate); done
    |repeat (apply List.Forall_cons; [auto|]); apply List.Forall_nil].
Qed.

(** X3: every status the handler sends is one the route declares in
    [responses]. *)
Theorem statuses_are_declared req w :
  Forall (λ status, pretty status ∈ Route.responses.*1)
         (statuses (trace (deploy req w))).
Proof.
  executions.
  all: repeat constructor; compute_done.
Qed.

(** Three fulfilled lookups are bound, in whatever order they settle. *)
Lemma retrieved_intro req w ob oa oe :
  bundles_findLatestByNameTagCombination (bundleNameTagCombination req) w
    = Fulfilled ob →
  apps_findOneByIdOrName (appName req) w = Fulfilled oa →
  entrypoints_findOneByIdOrUrlMatcher (entrypointUrlMatcher req) w
    = Fulfilled oe →
  retrieved req w ob oa oe.
Proof.
  unfold retrieved. intros -> -> ->. apply Promise_all_fulfilled.
Qed.

(** X4: the handler answers [409] exactly when the lookups bind a
    bundle and an entrypoint, and no app or an app that is not the
    entrypoint's. *)
Theorem conflict_iff_entrypoint_of_other_app req w :
  409%Z ∈ statuses (trace (deploy req w)) ↔
  ∃ b oa e,
    retrieved req w (Some b) oa (Some e) ∧
    (oa = None ∨ ∃ a, oa = Some a ∧ App.id a ≠ Entrypoint.appId e).
Proof.
  split.
  - executions; intros Hin.
    all: unfold statuses, responses in Hin; simpl in Hin.
    all: apply list_elem_of_In in Hin; simpl in Hin.
    all: try (exfalso; intuition discriminate).
    all: do 3 eexists; (split; [eapply retrieved_intro; eassumption|]).
    all: eauto.
  - intros (b & oa & e & (Hb & Ha & He)%retrieved_inv & Hmis).
    unfold deploy, handler. simpl. rewrite Hb, Ha, He, Promise_all_fulfilled. simpl.
    destruct Hmis as [->|(a & -> & Hne)]; simpl.
    + unfold statuses, responses. simpl. set_solver.
    + apply String.eqb_neq in Hne. rewrite Hne. simpl.
      unfold statuses, responses. simpl. set_solver.
Qed.

(** X5: the handler throws [BundleNotFoundError] exactly when the
    lookups bind no bundle, and then it names the requested name:tag
    combination. *)
Theorem not_found_iff_bundle_absent req w searchValue searchProperty :
  result (deploy req w)
    = Raised (BundleNotFoundError searchValue searchProperty) ↔
  searchValue = bundleNameTagCombination req ∧
  searchProperty = "name:tag combination" ∧
  ∃ oa oe, retrieved req w None oa oe.
Proof.
  split.
  - executions; intros [= <- <-].
    all: split_and!; try reflexivity.
    all: do 2 eexists; eapply retrieved_intro; eassumption.
  - intros (-> & -> & oa & oe & (Hb & Ha & He)%retrieved_inv).
    unfold deploy, handler. simpl. rewrite Hb, Ha, He, Promise_all_fulfilled. reflexivity.
Qed.

(** X6: the handler returns (rather than throws) exactly when no call
    it made failed and the bundle was found. *)
Theorem returns_iff_no_failure req w :
  result (deploy req w) = Returned () ↔
  rejections (trace (deploy req w)) = [] ∧
  ∃ b,
    bundles_findLatestByNameTagCombination (bundleNameTagCombination req) w
      = Fulfilled (Some b).
Proof.
  executions; unfold rejections; simpl.
  all: split; [intros H|intros [H [b Hb]]]; try discriminate.
  all: try reflexivity.
  all: split; [reflexivity|eauto].
Qed.
(** A kind of call that a trace does not hold. *)
Ltac not_called H :=
  exfalso; apply list_elem_of_In in H; simpl in H; intuition discriminate.

(** X7: the handler asks for an app to be created only when the
    lookups bind a bundle, no app and no entrypoint, and the matcher
    check has passed; the app asked for has the requested name and an
    empty default configuration. *)
Theorem app_created_only_when_nothing_found req w :
  KAppsCreate ∈ kinds (trace (deploy req w)) →
  (∃ b, retrieved req w (Some b) None None) ∧
  validateEntrypointUrlMatcher (entrypointUrlMatcher req) = Fulfilled () ∧
  omap app_requested (trace (deploy req w))
    = [{| App.p_name := appName req; App.p_defaultConfiguration := ∅ |}].
Proof.
  executions; intros Hin; try (not_called Hin).
  all: split_and!; try reflexivity.
  all: eexists; eapply retrieved_intro; eassumption.
Qed.

(** X8: the handler asks for an entrypoint to be created only when the
    lookups bind a bundle and no entrypoint; the entrypoint asked for
    has the requested matcher, no configuration, and the id of the app
    the lookup found or, none being found, of the app just created. *)
Theorem entrypoint_created_for_resolved_app req w :
  KEntrypointsCreate ∈ kinds (trace (deploy req w)) →
  ∃ b app,
    bundles_findLatestByNameTagCombination (bundleNameTagCombination req) w
      = Fulfilled (Some b) ∧
    entrypoints_findOneByIdOrUrlMatcher (entrypointUrlMatcher req) w
      = Fulfilled None ∧
    (apps_findOneByIdOrName (appName req) w = Fulfilled (Some app) ∨
     apps_findOneByIdOrName (appName req) w = Fulfilled None ∧
     created_apps (trace (deploy req w)) = [app]) ∧
    omap entrypoint_requested (trace (deploy req w))
      = [{| Entrypoint.p_appId := App.id app;
            Entrypoint.p_urlMatcher := entrypointUrlMatcher req;
            Entrypoint.p_configuration := None |}].
Proof.
  executions; intros Hin; try (not_called Hin).
  all: do 2 eexists; split_and!; try reflexivity.
  all: first [left; reflexivity | right; split; reflexivity].
Qed.

(** X9: the handler asks for an update only when the lookups bind a
    bundle; the update carries that bundle's id and goes to the
    entrypoint the lookup found, which then belongs to the app found
    for the requested name, or, none being found, to the entrypoint
    just created. *)
Theorem update_only_for_own_entrypoint req w :
  KEntrypointsUpdate ∈ kinds (trace (deploy req w)) →
  ∃ b e,
    bundles_findLatestByNameTagCombination (bundleNameTagCombination req) w
      = Fulfilled (Some b) ∧
    ((∃ a, apps_findOneByIdOrName (appName req) w = Fulfilled (Some a) ∧
           entrypoints_findOneByIdOrUrlMatcher (entrypointUrlMatcher req) w
             = Fulfilled (Some e) ∧
           App.id a = Entrypoint.appId e) ∨
     entrypoints_findOneByIdOrUrlMatcher (entrypointUrlMatcher req) w
       = Fulfilled None ∧
     created_entrypoints (trace (deploy req w)) = [e]) ∧
    omap update_requested (trace (deploy req w))
      = [(Entrypoint.id e, Entrypoint.bundleId_only (Bundle.id b))].
Proof.
  executions; intros Hin; try (not_called Hin).
  all: do 2 eexists; split_and!; try reflexivity.
  all: first [left; eexists; split_and!; first [reflexivity|assumption]
             |right; split; reflexivity].
Qed.
(** X10: when the lookups bind a bundle, an app and an entrypoint of
    that app, the handler checks no matcher and creates nothing: after
    the lookups it asks for the update and nothing else before it; and
    if the update and its log entry go through, it answers [204], the
    one log entry holding the entrypoint as found and as updated. *)
Theorem redeploy_updates_only req w b a e :
  retrieved req w (Some b) (Some a) (Some e) →
  App.id a = Entrypoint.appId e →
  validations (trace (deploy req w)) = [] ∧
  omap app_requested (trace (deploy req w)) = [] ∧
  omap entrypoint_requested (trace (deploy req w)) = [] ∧
  take 4 (kinds (trace (deploy req w)))
    = [KFindBundle; KFindApp; KFindEntrypoint; KEntrypointsUpdate] ∧
  omap update_requested (trace (deploy req w))
    = [(Entrypoint.id e, Entrypoint.bundleId_only (Bundle.id b))] ∧
  (∀ new w1 w2,
     entrypoints_update (Entrypoint.id e)
         (Entrypoint.bundleId_only (Bundle.id b)) w = (Fulfilled new, w1) →
     logOperation updateEntrypoint (UpdatedEntrypoint e new) w1
       = (Fulfilled (), w2) →
     result (deploy req w) = Returned () ∧
     responses (trace (deploy req w)) = [(204%Z, None)] ∧
     audit_emitted (trace (deploy req w))
       = [(updateEntrypoint, UpdatedEntrypoint e new)] ∧
     final (deploy req w) = w2).
Proof.
  intros (Hb & Ha & He)%retrieved_inv Hlink.
  apply String.eqb_eq in Hlink.
  unfold deploy, handler. simpl. rewrite Hb, Ha, He, Promise_all_fulfilled. simpl. rewrite Hlink.
  simpl. split_and!.
  6: { intros new w1 w2 Hu Hl. rewrite Hu. simpl. rewrite Hl. done. }
  all: settle; reflexivity.
Qed.

(** X11: the window the handler's comment warns of.  When the lookups
    bind a bundle and nothing else, the matcher check passes, the app
    is created and logged, and creating the entrypoint then fails, the
    handler throws that failure having answered nothing; the app has
    been created, no entrypoint has, and no update was asked for. *)
Theorem entrypoint_failure_leaves_app req w b app w1 w2 f w3 :
  retrieved req w (Some b) None None →
  validateEntrypointUrlMatcher (entrypointUrlMatcher req) = Fulfilled () →
  apps_create
      {| App.p_name := appName req; App.p_defaultConfiguration := ∅ |} w
    = (Fulfilled app, w1) →
  logOperation createApp (CreatedApp app) w1 = (Fulfilled (), w2) →
  entrypoints_create
      {| Entrypoint.p_appId := App.id app;
         Entrypoint.p_urlMatcher := entrypointUrlMatcher req;
         Entrypoint.p_configuration := None |} w2
    = (Rejected f, w3) →
  result (deploy req w) = Raised (CollaboratorFault f) ∧
  created_apps (trace (deploy req w)) = [app] ∧
  created_entrypoints (trace (deploy req w)) = [] ∧
  omap update_requested (trace (deploy req w)) = [] ∧
  audit_emitted (trace (deploy req w)) = [(createApp, CreatedApp app)] ∧
  responses (trace (deploy req w)) = [] ∧
  final (deploy req w) = w3.
Proof.
  intros (Hb & Ha & He)%retrieved_inv Hv Hc Hl Hce.
  unfold deploy, handler. simpl. rewrite Hb, Ha, He, Promise_all_fulfilled. simpl.
  rewrite Hv. simpl. rewrite Hc. simpl. rewrite Hl. simpl. rewrite Hce.
  done.
Qed.

(** X12: a log entry is written right after the creation or update it
    records, which went through; and every creation or update that
    goes through is followed at once by the call that logs it, under
    the operation of its kind. *)
Theorem log_follows_mutation req w :
  (∀ i op,
     kinds (trace (deploy req w)) !! i = Some (KLogOperation op) →
     ∃ j k, i = S j ∧
       kinds (trace (deploy req w)) !! j = Some k ∧
       operation_of k = Some op ∧
       rejected_with <$> trace (deploy req w) !! j = Some None) ∧
  (∀ j k op,
     kinds (trace (deploy req w)) !! j = Some k →
     operation_of k = Some op →
     rejected_with <$> trace (deploy req w) !! j = Some None →
     kinds (trace (deploy req w)) !! S j = Some (KLogOperation op)).
Proof.
  executions; split.
  all: try (intros i op;
            repeat (destruct i as [|i]; simpl; try discriminate);
            intros [= <-]; do 2 eexists; split_and!; reflexivity).
  all: intros j k op;
       repeat (destruct j as [|j]; simpl; try discriminate).
  all: intros [= <-]; simpl; intros [= <-]; simpl; intros [=]; reflexivity.
Qed.
(** X14: whatever happens, the handler starts by making the three
    lookups, for the requested name:tag combination, app name and
    matcher; none waits for another to succeed. *)
Theorem lookups_all_started req w :
  ∃ r1 r2 r3,
    take 3 (trace (deploy req w))
      = [Event (FindLatestByNameTagCombination (bundleNameTagCombination req))
               r1;
         Event (FindOneByIdOrName (appName req)) r2;
         Event (FindOneByIdOrUrlMatcher (entrypointUrlMatcher req)) r3] ∧
    r1 = bundles_findLatestByNameTagCombination
           (bundleNameTagCombination req) w ∧
    r2 = apps_findOneByIdOrName (appName req) w ∧
    r3 = entrypoints_findOneByIdOrUrlMatcher (entrypointUrlMatcher req) w.
Proof.
  executions.
  all: do 3 eexists; split_and!; reflexivity.
Qed.

(** X15: in every execution the handler asks the storage for at most
    one app creation, one entrypoint creation and one update, in this
    order. *)
Theorem mutations_in_order req w :
  sublist (kinds (mutations (trace (deploy req w))))
          [KAppsCreate; KEntrypointsCreate; KEntrypointsUpdate].
Proof.
  executions.
  all: repeat first [apply sublist_nil | apply sublist_skip | apply sublist_cons].
Qed.
End HandlerFacts.

(** * The body schema *)

(** X13: [bodySchema] accepts exactly the bodies that carry a request:
    objects with the three properties [appName],
    [entrypointUrlMatcher] and [bundleNameTagCombination], each a
    string, and no other property. *)
Theorem bodySchema_accepts_exactly_requests (v : JSON) :
  Schema.validate bodySchema v = true ↔ ∃ req, v = body_of req.
Proof.
  split.
  - unfold Schema.validate. intros [Hty Hrest]%andb_true_iff.
    destruct v as [| | | | |members]; try (vm_compute in Hty; discriminate).
    apply andb_true_iff in Hrest as [Hreq Hall].
    apply bool_decide_eq_true in Hall. simpl in Hreq.
    repeat (apply andb_true_iff in Hreq as [?%bool_decide_eq_true Hreq]).
    assert (∀ key, key ∈ Schema.required bodySchema →
              ∃ s, members !! key = Some (JString s)) as Hstr.
    { intros key Hkey.
      apply list_elem_of_In in Hkey. simpl in Hkey.
      assert (is_Some (members !! key) ∧
              Schema.properties bodySchema !! key
                = Some (Schema.mkProperty "string")) as [[vk Hk] Hp].
      { destruct Hkey as [<-|[<-|[<-|[]]]]; split; done. }
      specialize (Hall key vk Hk). unfold Schema.member_ok in Hall.
      rewrite Hp in Hall. apply bool_decide_eq_true in Hall.
      destruct vk; try discriminate. eauto. }
    destruct (Hstr "appName") as [a Ha];
      [apply list_elem_of_In; simpl; tauto|].
    destruct (Hstr "entrypointUrlMatcher") as [u Hu];
      [apply list_elem_of_In; simpl; tauto|].
    destruct (Hstr "bundleNameTagCombination") as [b Hb];
      [apply list_elem_of_In; simpl; tauto|].
    exists {| appName := a; entrypointUrlMatcher := u;
              bundleNameTagCombination := b |}.
    unfold body_of. simpl. f_equal. apply map_eq. intros key.
    destruct (decide (key = "appName")) as [->|Hna];
      [by rewrite Ha, lookup_insert_eq|].
    destruct (decide (key = "entrypointUrlMatcher")) as [->|Hnu];
      [by rewrite Hu, lookup_insert_ne, lookup_insert_eq|].
    destruct (decide (key = "bundleNameTagCombination")) as [->|Hnb];
      [by rewrite Hb, !lookup_insert_ne, lookup_singleton_eq|].
    rewrite !lookup_insert_ne, lookup_singleton_ne by done.
    destruct (members !! key) as [vk|] eqn:Hk; [|done].
    specialize (Hall key vk Hk). unfold Schema.member_ok in Hall.
    simpl in Hall.
    rewrite !lookup_insert_ne, lookup_singleton_ne in Hall by done.
    discriminate.
  - intros [[a u b] ->]. vm_compute. reflexivity.
Qed.

(** ** The further properties on the sample stores *)

(** The bundle lookup and the app lookup both fail, the app lookup
    first: its fault is the one thrown. *)
Lemma lookup_failure_propagates_witness :
  result (deploy_in_memory Memory.has_slash lookups_down
            Sample.acme_v1 Sample.only_bundle)
    = Raised (CollaboratorFault (Memory.GenericStorageError "apps down")) ∧
  final (deploy_in_memory Memory.has_slash lookups_down
           Sample.acme_v1 Sample.only_bundle) = Sample.only_bundle.
Proof.
  destruct (lookup_failure_propagates
              (C := Memory.storage Memory.has_slash lookups_down)
              Sample.acme_v1 Sample.only_bundle)
    as (f & H1 & _ & _ & Hp & _ & _ & H2).
  - exists (Memory.GenericStorageError "bundles down"). left. reflexivity.
  - vm_compute in Hp. injection Hp as <-. exact (conj H1 H2).
Defined.

(** A first deploy creates the app. *)
Lemma app_created_only_when_nothing_found_witness :
  omap app_requested
       (trace (deploy_in_memory Memory.has_slash Memory.reliable
                 Sample.acme_v1 Sample.only_bundle))
    = [{| App.p_name := "acme"; App.p_defaultConfiguration := ∅ |}].
Proof.
  destruct (app_created_only_when_nothing_found
              (C := Memory.storage Memory.has_slash Memory.reliable)
              Sample.acme_v1 Sample.only_bundle)
    as (_ & _ & H).
  - apply list_elem_of_In. vm_compute. tauto.
  - exact H.
Defined.

(** The app exists, the entrypoint is created for it. *)
Lemma entrypoint_created_for_resolved_app_witness :
  ∃ app,
    omap entrypoint_requested
         (trace (deploy_in_memory Memory.has_slash Memory.reliable
                   Sample.acme_v1 Sample.with_app))
      = [{| Entrypoint.p_appId := App.id app;
            Entrypoint.p_urlMatcher := "acme.example.com/";
            Entrypoint.p_configuration := None |}].
Proof.
  destruct (entrypoint_created_for_resolved_app
              (C := Memory.storage Memory.has_slash Memory.reliable)
              Sample.acme_v1 Sample.with_app)
    as (b & app & _ & _ & _ & H).
  - apply list_elem_of_In. vm_compute. tauto.
  - exists app. exact H.
Defined.

(** The entrypoint found belongs to the app found. *)
Lemma update_only_for_own_entrypoint_witness :
  ∃ b e,
    omap update_requested
         (trace (deploy_in_memory Memory.has_slash Memory.reliable
                   Sample.acme_v1 deployed_before))
      = [(Entrypoint.id e, Entrypoint.bundleId_only (Bundle.id b))].
Proof.
  destruct (update_only_for_own_entrypoint
              (C := Memory.storage Memory.has_slash Memory.reliable)
              Sample.acme_v1 deployed_before)
    as (b & e & _ & _ & H).
  - apply list_elem_of_In. vm_compute. tauto.
  - exists b, e. exact H.
Defined.

(** A new deploy to an entrypoint that is already there. *)
Lemma redeploy_updates_only_witness :
  validations (trace (deploy_in_memory Memory.has_slash Memory.reliable
                        Sample.acme_v1 deployed_before)) = [] ∧
  omap app_requested
       (trace (deploy_in_memory Memory.has_slash Memory.reliable
                 Sample.acme_v1 deployed_before)) = [] ∧
  omap entrypoint_requested
       (trace (deploy_in_memory Memory.has_slash Memory.reliable
                 Sample.acme_v1 deployed_before)) = [].
Proof.
  destruct (redeploy_updates_only
              (C := Memory.storage Memory.has_slash Memory.reliable)
              Sample.acme_v1 deployed_before
              (Bundle.mk "b1" "site" "v1") (App.mk "a1" "acme" ∅)
              (Entrypoint.mk "e1" "a1" "acme.example.com/" None None))
    as (H1 & H2 & H3 & _); [reflexivity..|].
  exact (conj H1 (conj H2 H3)).
Defined.

(** The app gets created, then creating the entrypoint fails. *)
Lemma entrypoint_failure_leaves_app_witness :
  result (deploy_in_memory Memory.has_slash Sample.entrypoints_create_down
            Sample.acme_v1 Sample.only_bundle)
    = Raised (CollaboratorFault (Memory.GenericStorageError "down")) ∧
  created_apps (trace (deploy_in_memory Memory.has_slash
                         Sample.entrypoints_create_down
                         Sample.acme_v1 Sample.only_bundle))
    = [App.mk "0" "acme" ∅] ∧
  created_entrypoints (trace (deploy_in_memory Memory.has_slash
                                Sample.entrypoints_create_down
                                Sample.acme_v1 Sample.only_bundle)) = [].
Proof.
  edestruct (entrypoint_failure_leaves_app
               (C := Memory.storage Memory.has_slash
                       Sample.entrypoints_create_down)
               Sample.acme_v1 Sample.only_bundle
               (Bundle.mk "b1" "site" "v1") (App.mk "0" "acme" ∅))
    as (H1 & H2 & H3 & _); [reflexivity..|].
  exact (conj H1 (conj H2 H3)).
Defined.
